(** * frieza: the websocket load driver of Dysax/slowserver

    A shallow embedding of [cmd/frieza/main.go]: the byte [counter], the
    address override [aoverride] with its [dial] hook, and the [Work]
    controller ([Start], [runWorker], [Stop], [PrintReport]) together with
    the part of [main] that builds the [Work] value.

    Go code is effectful: it panics, exits, blocks on channels, writes to
    the standard streams and talks to the network.  The embedding threads
    a state and a chronological event trace through a small monad whose
    outcomes are a returned value, a run-time panic, [os.Exit] or a
    goroutine that blocks for ever.  The network and the websocket
    library are collaborators outside the repository; they enter through
    the class [Env], and no theorem assumes more about them than it
    states.

    Goroutines are run one after another: a goroutine runs when it is
    spawned, up to its end or to the point where it parks, and [main] is
    followed for the run in which the duration timer fires after [Start]
    has returned.  Statements about one goroutine's own sequence of
    actions do not depend on that choice. *)

From Stdlib Require Import ZArith List String Ascii Bool Lia.
From stdpp Require Import base list strings.
Import ListNotations.

Local Open Scope string_scope.
Local Open Scope list_scope.
Local Open Scope Z_scope.

(** ** Go machine integers

    [int32] and [int] (64 bits on the amd64 and arm64 targets) are signed
    two's complement integers; arithmetic wraps around silently. *)

Definition wrap (bits x : Z) : Z :=
  (x + 2 ^ (bits - 1)) mod 2 ^ bits - 2 ^ (bits - 1).

Definition int32 (x : Z) : Z := wrap 32 x.
Definition int (x : Z) : Z := wrap 64 x.

Definition MaxInt32 : Z := 2 ^ 31 - 1.
Definition MinInt32 : Z := - 2 ^ 31.
Definition MaxInt : Z := 2 ^ 63 - 1.

(** [len] of a slice or string, as a Go [int]. *)
Definition len {A : Type} (l : list A) : Z := Z.of_nat (length l).

(** ** Values that cross the boundary to the collaborators *)

(** A Go [error] value is identified with its message. *)
Definition error : Type := string.

(** [net.Conn], as far as the driver looks at it: its remote address. *)
Record net_Conn : Type := { RemoteAddr : string }.

(** One call of [NextReader] followed by [io.Copy] on a websocket: either
    [NextReader] fails, or it yields a message of some type whose payload
    [io.Copy] hands to the writer chunk by chunk, possibly ending in a
    read error. *)
Inductive ReadResult : Type :=
| ReadErr (messageType : Z) (err : error)
| ReadMsg (messageType : Z) (chunks : list (list Byte.byte))
          (copy_err : option error).

(** A [*websocket.Conn] with the behaviour the peer will show on it: the
    error (or nil) of [NextWriter], the inbound messages in order, and the
    error (or nil) of writing the close frame. *)
Record websocket_Conn : Type := {
  ws_id : Z;
  ws_NextWriter : option error;
  ws_inbound : list ReadResult;
  ws_WriteClose : option error
}.

(** The [*http.Response] of a failed upgrade, as logged. *)
Record http_Response : Type := {
  StatusCode : Z;
  Status : string;
  Body : string
}.

Definition BinaryMessage : Z := 2.
Definition CloseMessage : Z := 8.

(** ** Events and outcomes *)

(** What the program prints; the text of each line is kept symbolic. *)
Inductive Msg : Type :=
| MUsage
| MText (s : string)
| MNewlines
| MStopping
| MStopped
| MWorkersStarted (i : Z)
| MReport (total C : Z)
| MFatalDial (i : Z) (err : error)
| MBadHandshake (resp : http_Response)
| MConnected (i : Z)
| MErrorWriting (err : error)
| MErrorReadingType (i messageType : Z)
| MErrorReading (err : error)
| MRead (n i messageType : Z)
| MWriteClose (err : error)
| MSplitHostPort (err : error)
| MNoOverride (network address h host : string)
| MDialed (raddr : string)
| MOverrideDialError (network a : string) (err : error).

Inductive Event : Type :=
| EStdout (m : Msg)
| EStdoutRaw (p : list Byte.byte)
| EStderr (m : Msg)
| ELog (m : Msg)
| ENetDial (network address : string)
| EGo (i : Z)
| ESleep
| EStopSend
| ECloseSockets
| ECloseCounters
| ESendSocket (ws : websocket_Conn)
| ESendCounter (c : nat)
| ENextWriter (ws : websocket_Conn) (messageType : Z)
| EWriteString (ws : websocket_Conn) (data : string)
| EWriteMessage (ws : websocket_Conn) (messageType : Z).

Inductive PanicKind : Type :=
| NilDereference
| IndexOutOfRange (i n : Z)
| SliceBoundsOutOfRange (lo n : Z)
| IntegerDivideByZero
| MakechanSizeOutOfRange
| SendOnClosedChannel
| CloseOfClosedChannel
| CloseOfNilChannel.

Inductive Outcome (A : Type) : Type :=
| Ret (a : A)
| Panic (p : PanicKind)
| Exit (code : Z)
| Blocked.

Arguments Ret {A} a.
Arguments Panic {A} p.
Arguments Exit {A} code.
Arguments Blocked {A}.

(** ** The collaborators

    Everything outside the repository that the driver calls and whose
    answer it depends on.  [net_Dial] and [ws_upgrade] are given the trace
    so far, so that the network may answer each call differently. *)

Definition ErrBadHandshake : error := "websocket: bad handshake".

(** What [Dialer.Dial] hands back: a connection, or an error together with
    the response of the failed upgrade when there was one. *)
Inductive DialResult : Type :=
| Dialed (ws : websocket_Conn)
| DialFailed (resp : option http_Response) (err : error).

Class Env : Type := {
  (** [net.SplitHostPort]: host and port, or an error. *)
  net_SplitHostPort : string -> (string * string) + error;
  (** [net.Dial(network, address)]: the pair [(net.Conn, error)]. *)
  net_Dial : list Event -> string -> string -> option net_Conn * option error;
  (** The [host:port] that [Dialer.Dial] derives from the URL. *)
  url_hostport : string -> string + error;
  (** What the peer answers to the websocket upgrade. *)
  ws_upgrade : list Event -> net_Conn -> DialResult;
  (** [regexp.MustCompile(regx).FindStringSubmatch(input)] *)
  FindStringSubmatch : string -> string -> list string
}.

(** ** The monad: state, trace, and the four outcomes *)

Definition M (St A : Type) : Type :=
  St -> list Event -> Outcome A * St * list Event.

Section Monad.
Context {St : Type}.

Definition ret {A : Type} (a : A) : M St A := fun s t => (Ret a, s, t).

Definition bind {A B : Type} (m : M St A) (k : A -> M St B) : M St B :=
  fun s t =>
    match m s t with
    | (Ret a, s', t') => k a s' t'
    | (Panic p, s', t') => (Panic p, s', t')
    | (Exit c, s', t') => (Exit c, s', t')
    | (Blocked, s', t') => (Blocked, s', t')
    end.

Definition get : M St St := fun s t => (Ret s, s, t).
Definition put (s : St) : M St unit := fun _ t => (Ret tt, s, t).
Definition modify (f : St -> St) : M St unit := fun s t => (Ret tt, f s, t).
Definition emit (e : Event) : M St unit := fun s t => (Ret tt, s, t ++ [e]).
Definition history : M St (list Event) := fun s t => (Ret t, s, t).
Definition panic {A : Type} (p : PanicKind) : M St A :=
  fun s t => (Panic p, s, t).
Definition os_Exit {A : Type} (code : Z) : M St A :=
  fun s t => (Exit code, s, t).
Definition block {A : Type} : M St A := fun s t => (Blocked, s, t).

Definition when (b : bool) (m : M St unit) : M St unit :=
  if b then m else ret tt.
End Monad.

Declare Scope go_scope.
Delimit Scope go_scope with go.
Notation "x <- m ;; k" := (bind m (fun x => k))
  (at level 100, m at next level, right associativity) : go_scope.
Notation "m ;; k" := (bind m (fun _ => k))
  (at level 100, right associativity) : go_scope.
Local Open Scope go_scope.

(** Run a computation on a part of the state. *)
Definition zoom {St Sub A : Type} (proj : St -> Sub) (inj : Sub -> St -> St)
    (m : M Sub A) : M St A :=
  fun s t =>
    match m (proj s) t with
    | (o, sub', t') => (o, inj sub' s, t')
    end.

Definition outcome {St A : Type} (r : Outcome A * St * list Event) : Outcome A :=
  fst (fst r).
Definition final {St A : Type} (r : Outcome A * St * list Event) : St :=
  snd (fst r).
Definition events {St A : Type} (r : Outcome A * St * list Event) : list Event :=
  snd r.

(** ** Go primitives that can panic *)

Section Primitives.
Context {St : Type}.

(** [a % b] on signed integers: truncated remainder, panics on zero. *)
Definition go_rem (a b : Z) : M St Z :=
  if b =? 0 then panic IntegerDivideByZero else ret (Z.rem a b).

(** [l[i]]. *)
Definition index {A : Type} (l : list A) (i : Z) : M St A :=
  if (i <? 0) || (len l <=? i) then panic (IndexOutOfRange i (len l))
  else match l !! Z.to_nat i with
       | Some x => ret x
       | None => panic (IndexOutOfRange i (len l))
       end.

(** [l[lo:]]. *)
Definition slice_from {A : Type} (l : list A) (lo : Z) : M St (list A) :=
  if (lo <? 0) || (len l <? lo) then panic (SliceBoundsOutOfRange lo (len l))
  else ret (drop (Z.to_nat lo) l).
End Primitives.

(** [strings.Split(s, sep)] for a one-byte separator. *)
Fixpoint strings_Split (s : string) (sep : ascii) : list string :=
  match s with
  | EmptyString => [EmptyString]
  | String c s' =>
      if Ascii.eqb c sep then EmptyString :: strings_Split s' sep
      else match strings_Split s' sep with
           | [] => [String c EmptyString]
           | w :: ws => String c w :: ws
           end
  end.

(** [slices.Contains]. *)
Definition slices_Contains (l : list string) (x : string) : bool :=
  existsb (String.eqb x) l.

(** ** counter *)

Module counter.
(** [type counter struct { N int }] *)
Record t : Type := mk { N : Z }.

(** [func (c *counter) Write(p []byte) (n int, err error)] *)
Definition Write (c : t) (p : list Byte.byte) : t * (Z * option error) :=
  ({| N := int (N c + len p) |}, (len p, None)).

(** Writing a sequence of chunks, collecting what each call returned. *)
Fixpoint WriteAll (c : t) (ps : list (list Byte.byte))
    : t * list (Z * option error) :=
  match ps with
  | [] => (c, [])
  | p :: ps' =>
      let '(c1, r) := Write c p in
      let '(c2, rs) := WriteAll c1 ps' in
      (c2, r :: rs)
  end.
End counter.

(** Sum of the chunk lengths, as a mathematical integer. *)
Definition total_len (ps : list (list Byte.byte)) : Z :=
  fold_right (fun p acc => len p + acc) 0 ps.

(** ** aoverride *)

(** [type aoverride struct { addrs []string; n int32; h string; seen []string }] *)
Record aoverride : Type := {
  addrs : list string;
  n : Z;
  h : string;
  seen : list string
}.

Definition set_n (v : Z) (a : aoverride) : aoverride :=
  {| addrs := addrs a; n := v; h := h a; seen := seen a |}.
Definition set_seen (v : list string) (a : aoverride) : aoverride :=
  {| addrs := addrs a; n := n a; h := h a; seen := v |}.

(** [&aoverride{h: host, addrs: addrs}] *)
Definition new_aoverride (host : string) (pool : list string) : aoverride :=
  {| addrs := pool; n := 0; h := host; seen := [] |}.

Section Network.
Context {env : Env}.

Definition call_net_Dial {St : Type} (network address : string)
    : M St (option net_Conn * option error) :=
  t <- history ;;
  emit (ENetDial network address) ;;
  ret (net_Dial t network address).

(** [atomic.AddInt32(&as.n, 1)] *)
Definition atomic_AddInt32_n (delta : Z) : M aoverride unit :=
  modify (fun a => set_n (int32 (n a + delta)) a).

(** [func (as *aoverride) dial(ctx, network, address string) (net.Conn, error)] *)
Definition dial (network address : string)
    : M aoverride (option net_Conn * option error) :=
  match net_SplitHostPort address with
  | inr err =>
      emit (EStderr (MSplitHostPort err)) ;;
      os_Exit 1
  | inl (host, port) =>
      as_ <- get ;;
      if negb (String.eqb host (h as_)) then
        r <- call_net_Dial network address ;;
        let '(c, err) := r in
        match c with
        | None => panic NilDereference
        | Some conn =>
            let raddr := RemoteAddr conn in
            when (negb (slices_Contains (seen as_) raddr))
              (modify (set_seen (seen as_ ++ [raddr])) ;;
               emit (EStderr (MNoOverride network address (h as_) host)) ;;
               emit (EStderr (MDialed raddr))) ;;
            ret (c, err)
        end
      else
        i <- go_rem (n as_) (len (addrs as_)) ;;
        x <- index (addrs as_) i ;;
        let a := x +:+ ":" +:+ port in
        atomic_AddInt32_n 1 ;;
        r <- call_net_Dial network a ;;
        let '(c, err) := r in
        match err with
        | Some e => emit (ELog (MOverrideDialError network a e))
        | None => ret tt
        end ;;
        ret (c, err)
  end.

(** A sequence of calls of the hook, in order, with what each returned. *)
Fixpoint dial_seq (calls : list (string * string))
    : M aoverride (list (option net_Conn * option error)) :=
  match calls with
  | [] => ret []
  | (network, address) :: rest =>
      r <- dial network address ;;
      rs <- dial_seq rest ;;
      ret (r :: rs)
  end.

(** The host of [address] is [host]. *)
Definition host_is (host : string) (call : string * string) : Prop :=
  exists port, net_SplitHostPort (snd call) = inl (host, port).
End Network.

(** A stand-in for [net.SplitHostPort] on addresses without brackets: the
    port is what follows the last colon.  Used to evaluate examples. *)
Fixpoint split_last_colon (s : string) : option (string * string) :=
  match s with
  | EmptyString => None
  | String c s' =>
      match split_last_colon s' with
      | Some (hst, prt) => Some (String c hst, prt)
      | None => if Ascii.eqb c ":" then Some (EmptyString, s') else None
      end
  end.

Definition SplitHostPort_plain (address : string) : (string * string) + error :=
  match split_last_colon address with
  | Some hp => inl hp
  | None => inr "missing port in address"
  end.

(** Networks used in examples: one where every dial is refused and one
    where every dial reaches the address asked for. *)
Definition net_refuse (_ : list Event) (_ _ : string)
    : option net_Conn * option error :=
  (None, Some "connection refused").

Definition net_accept (_ : list Event) (_ address : string)
    : option net_Conn * option error :=
  (Some {| RemoteAddr := address |}, None).

(** ** Channels *)

(** A buffered channel: what is queued, the capacity, and whether it has
    been closed.  A nil channel is [None]. *)
Record chan (A : Type) : Type := {
  buf : list A;
  cap : Z;
  closed : bool
}.
Arguments buf {A} c.
Arguments cap {A} c.
Arguments closed {A} c.

Definition set_buf {A : Type} (b : list A) (c : chan A) : chan A :=
  {| buf := b; cap := cap c; closed := closed c |}.

Section Channels.
Context {St A : Type}.
Variable getc : St -> option (chan A).
Variable setc : option (chan A) -> St -> St.

(** [make(chan A, size)] *)
Definition make_chan (size : Z) : M St unit :=
  if size <? 0 then panic MakechanSizeOutOfRange
  else modify (setc (Some {| buf := []; cap := size; closed := false |})).

(** [ch <- x].  With no receiver waiting, a send on a full channel
    parks the sender. *)
Definition send (x : A) : M St unit :=
  s <- get ;;
  match getc s with
  | None => block
  | Some c =>
      if closed c then panic SendOnClosedChannel
      else if len (buf c) <? cap c
           then put (setc (Some (set_buf (buf c ++ [x]) c)) s)
           else block
  end.

(** [close(ch)] *)
Definition close : M St unit :=
  s <- get ;;
  match getc s with
  | None => panic CloseOfNilChannel
  | Some c =>
      if closed c then panic CloseOfClosedChannel
      else put (setc (Some {| buf := buf c; cap := cap c; closed := true |}) s)
  end.

(** One step of [for x := range ch]: the next element, or [None] when
    the channel is closed and drained. *)
Definition recv_range : M St (option A) :=
  s <- get ;;
  match getc s with
  | None => block
  | Some c =>
      match buf c with
      | x :: rest => put (setc (Some (set_buf rest c)) s) ;; ret (Some x)
      | [] => if closed c then ret None else block
      end
  end.

(** [select { case <-ch: ... default: }]: whether the case fired. *)
Definition try_recv : M St bool :=
  s <- get ;;
  match getc s with
  | None => ret false
  | Some c =>
      match buf c with
      | _ :: rest => put (setc (Some (set_buf rest c)) s) ;; ret true
      | [] => ret (closed c)
      end
  end.

(** What is queued on the channel right now. *)
Definition queued (s : St) : list A :=
  match getc s with
  | None => []
  | Some c => buf c
  end.
End Channels.

(** ** Work *)

(** The fields of [websocket.Dialer] the driver sets; [NetDialContext] is
    either unset or the bound method [w.ao.dial]. *)
Record Dialer : Type := {
  InsecureSkipVerify : bool;
  NetDialContext : bool
}.

Module Work.
(** [type Work struct].  The two time stamps are not modelled. *)
Record t : Type := mk {
  N : Z;
  C : Z;
  CPS : Z;
  Timeout : Z;
  URL : string;
  resolve : string;
  SendData : string;
  verbose : bool;
  vv : bool;
  k : bool;
  sockets : option (chan websocket_Conn);
  counters : option (chan nat);
  ao : option aoverride;
  dila : option Dialer;
  header : list (string * string);
  stopCh : option (chan unit)
}.

Definition set_sockets (v : option (chan websocket_Conn)) (w : t) : t :=
  mk (N w) (C w) (CPS w) (Timeout w) (URL w) (resolve w) (SendData w)
     (verbose w) (vv w) (k w) v (counters w) (ao w) (dila w) (header w)
     (stopCh w).
Definition set_counters (v : option (chan nat)) (w : t) : t :=
  mk (N w) (C w) (CPS w) (Timeout w) (URL w) (resolve w) (SendData w)
     (verbose w) (vv w) (k w) (sockets w) v (ao w) (dila w) (header w)
     (stopCh w).
Definition set_ao (v : option aoverride) (w : t) : t :=
  mk (N w) (C w) (CPS w) (Timeout w) (URL w) (resolve w) (SendData w)
     (verbose w) (vv w) (k w) (sockets w) (counters w) v (dila w) (header w)
     (stopCh w).
Definition set_dila (v : option Dialer) (w : t) : t :=
  mk (N w) (C w) (CPS w) (Timeout w) (URL w) (resolve w) (SendData w)
     (verbose w) (vv w) (k w) (sockets w) (counters w) (ao w) v (header w)
     (stopCh w).
Definition set_stopCh (v : option (chan unit)) (w : t) : t :=
  mk (N w) (C w) (CPS w) (Timeout w) (URL w) (resolve w) (SendData w)
     (verbose w) (vv w) (k w) (sockets w) (counters w) (ao w) (dila w)
     (header w) v.
End Work.

(** The process state the goroutines share: the one [Work] value that
    [main] allocates, the counters the workers allocate (a [*counter] is
    an index into [heap], so the pointer queued on [w.counters] and the
    one its worker keeps writing through are the same object), and the
    [sync.WaitGroup] of [Start]. *)
Record World : Type := {
  w : Work.t;
  heap : list counter.t;
  wg : Z
}.

Definition set_w (v : Work.t) (s : World) : World :=
  {| w := v; heap := heap s; wg := wg s |}.
Definition set_heap (v : list counter.t) (s : World) : World :=
  {| w := w s; heap := v; wg := wg s |}.
Definition set_wg (v : Z) (s : World) : World :=
  {| w := w s; heap := heap s; wg := v |}.

Definition on_w (f : Work.t -> Work.t) (s : World) : World := set_w (f (w s)) s.

Definition get_sockets (s : World) := Work.sockets (w s).
Definition put_sockets v (s : World) := on_w (Work.set_sockets v) s.
Definition get_counters (s : World) := Work.counters (w s).
Definition put_counters v (s : World) := on_w (Work.set_counters v) s.
Definition get_stopCh (s : World) := Work.stopCh (w s).
Definition put_stopCh v (s : World) := on_w (Work.set_stopCh v) s.

(** [go f()], under the schedule in which a goroutine runs as soon as it
    is spawned and is not resumed once it has parked: a parked or finished
    goroutine gives control back, a panic or [os.Exit] ends the process. *)
Definition go_ {St : Type} (m : M St unit) : M St unit :=
  fun s t =>
    match m s t with
    | (Blocked, s', t') => (Ret tt, s', t')
    | r => r
    end.

(** [for i := from; i < from + count; i++ { body }] *)
Fixpoint for_loop {St : Type} (count : nat) (i : Z) (body : Z -> M St unit)
    : M St unit :=
  match count with
  | O => ret tt
  | S count' => body i ;; for_loop count' (i + 1) body
  end.

Section Driver.
Context {env : Env}.

(** Run the bound method [w.ao.dial] on the shared override. *)
Definition ao_dial (network address : string)
    : M World (option net_Conn * option error) :=
  fun s t =>
    match Work.ao (w s) with
    | None => (Panic NilDereference, s, t)
    | Some a =>
        match dial network address a t with
        | (o, a', t') => (o, on_w (Work.set_ao (Some a')) s, t')
        end
    end.

(** The websocket library, as the driver relies on it: [Dialer.Dial]
    derives [host:port] from the URL, opens the transport with
    [NetDialContext] when that is set and with [net.Dial] otherwise, and
    upgrades the connection. *)
Definition Dialer_Dial (urlStr : string) (hdr : list (string * string))
    : M World DialResult :=
  match url_hostport urlStr with
  | inr err => ret (DialFailed None err)
  | inl hostPort =>
      s <- get ;;
      match Work.dila (w s) with
      | None => panic NilDereference
      | Some d =>
          r <- (if NetDialContext d then ao_dial "tcp" hostPort
                else call_net_Dial "tcp" hostPort) ;;
          let '(c, err) := r in
          match err with
          | Some e => ret (DialFailed None e)
          | None =>
              match c with
              | None => panic NilDereference
              | Some conn => t <- history ;; ret (ws_upgrade t conn)
              end
          end
      end
  end.

(** [c := &counter{}] *)
Definition new_counter : M World nat :=
  s <- get ;;
  put (set_heap (heap s ++ [counter.mk 0]) s) ;;
  ret (length (heap s)).

(** [c.Write(p)] through the pointer [c]. *)
Definition counter_Write (c : nat) (p : list Byte.byte) : M World Z :=
  s <- get ;;
  match heap s !! c with
  | None => panic NilDereference
  | Some cnt =>
      let '(cnt', (written, _)) := counter.Write cnt p in
      put (set_heap (<[c := cnt']> (heap s)) s) ;;
      ret written
  end.

(** [io.Copy(out, r)], where [out] is the counter [c], behind
    [io.MultiWriter(os.Stdout, c)] when [vv] is set; returns the number
    of bytes copied. *)
Fixpoint io_Copy (vv : bool) (c : nat) (chunks : list (list Byte.byte))
    : M World Z :=
  match chunks with
  | [] => ret 0
  | p :: rest =>
      when vv (emit (EStdoutRaw p)) ;;
      written <- counter_Write c p ;;
      m <- io_Copy vv c rest ;;
      ret (written + m)
  end.

(** The receive loop of [runWorker]; [inbound] is what the connection
    will still deliver.  When nothing is left, [NextReader] waits. *)
Fixpoint receive (i : Z) (c : nat) (inbound : list ReadResult)
    : M World unit :=
  match inbound with
  | [] => block
  | ReadErr messageType err :: _ =>
      s <- get ;;
      when (Work.verbose (w s)) (emit (ELog (MErrorReadingType i messageType)))
  | ReadMsg messageType chunks copy_err :: rest =>
      if messageType =? CloseMessage then ret tt
      else
        s <- get ;;
        nbytes <- io_Copy (Work.vv (w s)) c chunks ;;
        match copy_err with
        | Some err => emit (ELog (MErrorReading err))
        | None =>
            when (Work.verbose (w s)) (emit (ELog (MRead nbytes i messageType))) ;;
            stop <- try_recv get_stopCh put_stopCh ;;
            if stop then ret tt else receive i c rest
        end
  end.

(** [io.WriteString(ww, data)] on the writer [NextWriter] returned. *)
Definition io_WriteString (ww : option websocket_Conn) (data : string)
    : M World unit :=
  match ww with
  | None => panic NilDereference
  | Some ws => emit (EWriteString ws data)
  end.

(** [func (w *Work) runWorker(i int)] *)
Definition runWorker (i : Z) : M World unit :=
  s <- get ;;
  r <- Dialer_Dial (Work.URL (w s)) (Work.header (w s)) ;;
  match r with
  | DialFailed resp err =>
      emit (ELog (MFatalDial i err)) ;;
      if String.eqb err ErrBadHandshake then
        match resp with
        | None => panic NilDereference
        | Some rsp =>
            emit (ELog (MBadHandshake rsp)) ;;
            emit (EStderr (MText (Body rsp)))
        end
      else ret tt
  | Dialed ws =>
      when (Work.verbose (w s)) (emit (ELog (MConnected i))) ;;
      send get_sockets put_sockets ws ;;
      emit (ESendSocket ws) ;;
      (if negb (String.eqb (Work.SendData (w s)) "") then
         emit (ENextWriter ws BinaryMessage) ;;
         let '(ww, err) :=
           match ws_NextWriter ws with
           | Some e => (None, Some e)
           | None => (Some ws, None)
           end in
         match err with
         | Some e => emit (ELog (MErrorWriting e))
         | None => ret tt
         end ;;
         io_WriteString ww (Work.SendData (w s))
       else ret tt) ;;
      c <- new_counter ;;
      send get_counters put_counters c ;;
      emit (ESendCounter c) ;;
      receive i c (ws_inbound ws)
  end.

(** [wg.Add] ([wg.Done] is [wg.Add(-1)]) and [wg.Wait], on the wait group
    that [Start] declares. *)
Definition wg_Add (delta : Z) : M World unit :=
  modify (fun s => set_wg (wg s + delta) s).
Definition wg_Wait : M World unit :=
  s <- get ;;
  if wg s =? 0 then ret tt else block.

(** The body of the launch loop of [Start]. *)
Definition launch (i : Z) : M World unit :=
  emit (EGo i) ;;
  go_ (runWorker i ;; wg_Add (-1)) ;;
  s <- get ;;
  ready <- (if 0 <? i then
              r <- go_rem i (Work.CPS (w s)) ;; ret (r =? 0)
            else ret false) ;;
  when ready
    (when (Work.verbose (w s)) (emit (EStdout (MWorkersStarted i))) ;;
     emit ESleep).

(** The override set-up of [Start]. *)
Definition setup_resolve : M World unit :=
  s <- get ;;
  if negb (String.eqb (Work.resolve (w s)) "") then
    let r := strings_Split (Work.resolve (w s)) ":" in
    host <- index r 0 ;;
    addrs <- slice_from r 2 ;;
    modify (on_w (Work.set_ao (Some (new_aoverride host addrs)))) ;;
    s1 <- get ;;
    match Work.dila (w s1) with
    | None => panic NilDereference
    | Some d =>
        put (on_w (Work.set_dila
                     (Some {| InsecureSkipVerify := InsecureSkipVerify d;
                              NetDialContext := true |})) s1)
    end
  else ret tt.

(** [func (w *Work) Start()] *)
Definition Start : M World unit :=
  s <- get ;;
  make_chan put_sockets (Work.C (w s)) ;;
  make_chan put_counters (Work.C (w s)) ;;
  make_chan put_stopCh (Work.C (w s)) ;;
  modify (on_w (Work.set_dila
    (Some {| InsecureSkipVerify := Work.k (w s); NetDialContext := false |}))) ;;
  setup_resolve ;;
  modify (set_wg 0) ;;
  wg_Add (Work.C (w s)) ;;
  for_loop (Z.to_nat (Work.C (w s))) 0 launch ;;
  when (Work.verbose (w s)) (emit (EStdout (MWorkersStarted (Work.C (w s))))) ;;
  wg_Wait.

(** The [for s := range w.sockets] loop of [Stop]; the result tells
    whether the body returned from [Stop].  Nothing is added to the queue
    while the loop runs, so it ends on the closed, drained channel (or
    parks on an open one) within one step more than there are queued
    elements: [fuel] is never used up. *)
Fixpoint Stop_range (fuel : nat) : M World bool :=
  match fuel with
  | O => block
  | S fuel' =>
      next <- recv_range get_sockets put_sockets ;;
      match next with
      | None => ret false
      | Some s =>
          emit (EWriteMessage s CloseMessage) ;;
          match ws_WriteClose s with
          | Some err => emit (ELog (MWriteClose err)) ;; ret true
          | None => Stop_range fuel'
          end
      end
  end.

(** [func (w *Work) Stop()] *)
Definition Stop : M World unit :=
  s <- get ;;
  when (Work.verbose (w s)) (emit (EStdout MStopping)) ;;
  for_loop (Z.to_nat (Work.C (w s))) 0
    (fun _ => send get_stopCh put_stopCh tt ;; emit EStopSend) ;;
  close get_sockets put_sockets ;;
  emit ECloseSockets ;;
  close get_counters put_counters ;;
  emit ECloseCounters ;;
  s1 <- get ;;
  returned <- Stop_range (S (length (queued get_sockets s1))) ;;
  if returned then ret tt
  else when (Work.verbose (w s)) (emit (EStdout MStopped)).

(** The [for c := range w.counters] loop of [PrintReport], with [fuel]
    as in [Stop_range]. *)
Fixpoint PrintReport_range (fuel : nat) (total : Z) : M World Z :=
  match fuel with
  | O => block
  | S fuel' =>
      next <- recv_range get_counters put_counters ;;
      match next with
      | None => ret total
      | Some c =>
          s <- get ;;
          match heap s !! c with
          | None => panic NilDereference
          | Some cnt => PrintReport_range fuel' (int (total + counter.N cnt))
          end
      end
  end.

(** [func (w *Work) PrintReport()] *)
Definition PrintReport : M World unit :=
  s <- get ;;
  total <- PrintReport_range (S (length (queued get_counters s))) 0 ;;
  emit (EStdout (MReport total (Work.C (w s)))).
End Driver.

(** ** main *)

Definition headerRegexp : string := "^([\w-]+):\s*(.+)".

Module flag.
(** The variables [main] binds to the command line, after [flag.Parse]:
    [Args] are the positional arguments and [hs] the [-H] values. *)
Record t : Type := mk {
  body : string;
  bodyFile : string;
  hostHeader : string;
  userAgent : string;
  resolve : string;
  conc : Z;
  timeout : Z;
  q : Z;
  v : bool;
  vv : bool;
  k : bool;
  h2 : bool;
  hs : list string;
  Args : list string
}.
End flag.

(** [http.Header.Set], without the canonical spelling of the key. *)
Definition header_Set (hdr : list (string * string)) (key value : string)
    : list (string * string) :=
  filter (fun kv => negb (String.eqb (fst kv) key)) hdr ++ [(key, value)].

Definition zero_Work : Work.t :=
  Work.mk 0 0 0 0 "" "" "" false false false None None None None [] None.

Definition zero_World : World := {| w := zero_Work; heap := []; wg := 0 |}.

Section Main.
Context {env : Env}.

(** [func usageAndExit(msg string)] *)
Definition usageAndExit {St A : Type} (msg : string) : M St A :=
  when (negb (String.eqb msg ""))
    (emit (EStderr (MText msg)) ;; emit (EStderr MNewlines)) ;;
  emit (EStderr MUsage) ;;
  emit (EStderr MNewlines) ;;
  os_Exit 1.

(** [func parseInputWithRegexp(input, regx string) ([]string, error)] *)
Definition parseInputWithRegexp (input regx : string)
    : list string * option error :=
  let matches := FindStringSubmatch regx input in
  if len matches <? 1 then
    ([], Some ("could not parse the provided input; input = " +:+ input))
  else (matches, None).

(** The [for _, h := range hs] loop of [main]. *)
Fixpoint parse_headers {St : Type} (hs : list string)
    (hdr : list (string * string)) : M St (list (string * string)) :=
  match hs with
  | [] => ret hdr
  | hd :: rest =>
      let '(mtch, err) := parseInputWithRegexp hd headerRegexp in
      match err with
      | Some e => usageAndExit e
      | None =>
          key <- index mtch 1 ;;
          value <- index mtch 2 ;;
          parse_headers rest (header_Set hdr key value)
      end
  end.

(** [main] up to and including [w := &Work{...}]. *)
Definition main_Work {St : Type} (fl : flag.t) : M St Work.t :=
  (if len (flag.Args fl) <? 1 then usageAndExit "" else ret tt) ;;
  let q := if flag.q fl =? 0 then flag.conc fl else flag.q fl in
  url <- index (flag.Args fl) 0 ;;
  hdr <- parse_headers (flag.hs fl) [] ;;
  ret {| Work.N := 0;
         Work.C := flag.conc fl;
         Work.CPS := q;
         Work.Timeout := flag.timeout fl;
         Work.URL := url;
         Work.resolve := flag.resolve fl;
         Work.SendData := "";
         Work.verbose := flag.v fl;
         Work.vv := flag.vv fl;
         Work.k := flag.k fl;
         Work.sockets := None;
         Work.counters := None;
         Work.ao := None;
         Work.dila := None;
         Work.header := hdr;
         Work.stopCh := None |}.

(** [func main()], for the run in which no interrupt arrives and the
    duration timer fires once [Start] has returned: the timer goroutine
    then runs [Stop] while the main goroutine is in [PrintReport]. *)
Definition main (fl : flag.t) : M World unit :=
  wk <- main_Work fl ;;
  modify (set_w wk) ;;
  Start ;;
  go_ (Stop) ;;
  PrintReport.
End Main.

(** ** Concrete inputs used below *)

(** [2^63] chunks of one byte each. *)
Definition one_byte_chunks (count : nat) : list (list Byte.byte) :=
  repeat [Byte.x00] count.

Definition pool3 : list string := ["10.0.0.1"; "10.0.0.2"; "10.0.0.3"].

Definition same_call (count : nat) : list (string * string) :=
  repeat ("tcp", "example.com:443") count.

(** The addresses handed to [net.Dial], in order. *)
Fixpoint dials (tr : list Event) : list (string * string) :=
  match tr with
  | [] => []
  | ENetDial network address :: rest => (network, address) :: dials rest
  | _ :: rest => dials rest
  end.

(** The log line [dial] writes when the substituted dial fails. *)
Definition dial_log (network a : string) (r : option net_Conn * option error)
    : list Event :=
  match snd r with
  | Some e => [ELog (MOverrideDialError network a e)]
  | None => []
  end.

(** [pool[j mod K]], the address round-robin selects at index [j]. *)
Definition round_robin (pool : list string) (j : Z) : option string :=
  pool !! Z.to_nat (j mod len pool).

(** The indices of the workers launched, in order. *)
Fixpoint launches (tr : list Event) : list Z :=
  match tr with
  | [] => []
  | EGo i :: rest => i :: launches rest
  | _ :: rest => launches rest
  end.

(** The number of one-second pauses that precede the [N]-th launch
    (counting from 1), if there is an [N]-th launch. *)
Fixpoint pauses_before (N : nat) (tr : list Event) : option nat :=
  match tr with
  | [] => None
  | EGo _ :: rest =>
      match N with
      | O => None
      | S O => Some O
      | S N' => pauses_before N' rest
      end
  | ESleep :: rest => option_map S (pauses_before N rest)
  | _ :: rest => pauses_before N rest
  end.

(** The close frames written, in order. *)
Fixpoint close_frames (tr : list Event) : list websocket_Conn :=
  match tr with
  | [] => []
  | EWriteMessage ws _ :: rest => ws :: close_frames rest
  | _ :: rest => close_frames rest
  end.

(** Whether the event writes to a websocket. *)
Definition is_payload_write (e : Event) : bool :=
  match e with
  | ENextWriter _ _ | EWriteString _ _ => true
  | _ => false
  end.

Definition init_World (wk : Work.t) : World :=
  {| w := wk; heap := []; wg := 0 |}.

(** A [Work] as [main] builds it for [-c C -q CPS -resolve resolve url]. *)
Definition work_of (C CPS : Z) (url resolve : string) : Work.t :=
  {| Work.N := 0; Work.C := C; Work.CPS := CPS; Work.Timeout := 20;
     Work.URL := url; Work.resolve := resolve; Work.SendData := "";
     Work.verbose := false; Work.vv := false; Work.k := false;
     Work.sockets := None; Work.counters := None; Work.ao := None;
     Work.dila := None; Work.header := []; Work.stopCh := None |}.

(** The command line [frieza -c conc -d body -resolve resolve url]. *)
Definition flags_of (conc : Z) (body resolve url : string) : flag.t :=
  {| flag.body := body; flag.bodyFile := ""; flag.hostHeader := "";
     flag.userAgent := ""; flag.resolve := resolve; flag.conc := conc;
     flag.timeout := 20; flag.q := 0; flag.v := false; flag.vv := false;
     flag.k := false; flag.h2 := false; flag.hs := [];
     flag.Args := [url] |}.

(** Every URL of the examples names [example.com:443]. *)
Definition url_example (_ : string) : string + error := inl "example.com:443".

(** A peer that upgrades every connection, sends one two-byte message and
    then drops the connection; the close frame cannot be written to the
    connection opened by the first dial. *)
Definition upgrade_example (t : list Event) (_ : net_Conn) : DialResult :=
  Dialed {| ws_id := len (dials t);
            ws_NextWriter := None;
            ws_inbound := [ReadMsg BinaryMessage [[Byte.x68; Byte.x69]] None;
                           ReadErr 0 "unexpected EOF"];
            ws_WriteClose := if len (dials t) =? 1 then Some "broken pipe"
                             else None |}.

Definition no_regexp (_ _ : string) : list string := [].

(** The collaborators of the examples: a target that refuses every
    connection, and one that accepts every connection. *)
Definition env_refuse : Env :=
  {| net_SplitHostPort := SplitHostPort_plain;
     net_Dial := net_refuse;
     url_hostport := url_example;
     ws_upgrade := upgrade_example;
     FindStringSubmatch := no_regexp |}.

Definition env_accept : Env :=
  {| net_SplitHostPort := SplitHostPort_plain;
     net_Dial := net_accept;
     url_hostport := url_example;
     ws_upgrade := upgrade_example;
     FindStringSubmatch := no_regexp |}.

(** A run whose URL names [other.org:443], on a target that accepts. *)
Definition env_other : Env :=
  {| net_SplitHostPort := SplitHostPort_plain;
     net_Dial := net_accept;
     url_hostport := fun _ => inl "other.org:443";
     ws_upgrade := upgrade_example;
     FindStringSubmatch := no_regexp |}.

(** A run whose URL names [other.org:443], on a target that refuses. *)
Definition env_other_refuse : Env :=
  {| net_SplitHostPort := SplitHostPort_plain;
     net_Dial := net_refuse;
     url_hostport := fun _ => inl "other.org:443";
     ws_upgrade := upgrade_example;
     FindStringSubmatch := no_regexp |}.

(** A target that accepts, on whose connections [NextWriter] fails. *)
Definition env_no_writer : Env :=
  {| net_SplitHostPort := SplitHostPort_plain;
     net_Dial := net_accept;
     url_hostport := url_example;
     ws_upgrade := fun t _ =>
       Dialed {| ws_id := len (dials t);
                 ws_NextWriter := Some "write: broken pipe";
                 ws_inbound := [ReadErr 0 "unexpected EOF"];
                 ws_WriteClose := None |};
     FindStringSubmatch := no_regexp |}.

(** No byte of [s] is [c]. *)
Fixpoint free_of (c : ascii) (s : string) : bool :=
  match s with
  | EmptyString => true
  | String c' s' => negb (Ascii.eqb c' c) && free_of c s'
  end.

(** The connection [upgrade_example] hands out after the [id]-th dial. *)
Definition ws_example (id : Z) : websocket_Conn :=
  {| ws_id := id;
     ws_NextWriter := None;
     ws_inbound := [ReadMsg BinaryMessage [[Byte.x68; Byte.x69]] None;
                    ReadErr 0 "unexpected EOF"];
     ws_WriteClose := if id =? 1 then Some "broken pipe" else None |}.

(** The workers whose dial failure was logged, in order. *)
Fixpoint fatal_dials (tr : list Event) : list Z :=
  match tr with
  | [] => []
  | ELog (MFatalDial i _) :: rest => i :: fatal_dials rest
  | _ :: rest => fatal_dials rest
  end.

(** The target refuses every connection. *)
Definition refuses_all {env : Env} : Prop :=
  forall t network address,
    exists e, net_Dial t network address = (None, Some e) /\ e <> ErrBadHandshake.

(** What [Start] makes of [-resolve]: nothing when it is empty, else the
    host and the pool. *)
Definition override_of (resolve : string) : option (string * list string) :=
  if String.eqb resolve "" then None
  else match strings_Split resolve ":" with
       | host :: _ :: pool => Some (host, pool)
       | _ => None
       end.

(** The override, when one is configured, is well formed and is for the
    host the workers dial. *)
Definition override_applies {env : Env} (wk : Work.t) (hostPort : string)
    : Prop :=
  Work.resolve wk = "" \/
  exists host port p pool,
    strings_Split (Work.resolve wk) ":" = host :: p :: pool /\
    pool <> [] /\
    net_SplitHostPort hostPort = inl (host, port) /\
    Work.C wk <= MaxInt32.

(** The shared state of a run in which [i] workers have been launched and
    every one of them has failed to dial. *)
Definition run_state (wk : Work.t) (i : Z) : World :=
  {| w := {| Work.N := Work.N wk; Work.C := Work.C wk; Work.CPS := Work.CPS wk;
             Work.Timeout := Work.Timeout wk; Work.URL := Work.URL wk;
             Work.resolve := Work.resolve wk; Work.SendData := Work.SendData wk;
             Work.verbose := Work.verbose wk; Work.vv := Work.vv wk;
             Work.k := Work.k wk;
             Work.sockets := Some {| buf := []; cap := Work.C wk; closed := false |};
             Work.counters := Some {| buf := []; cap := Work.C wk; closed := false |};
             Work.ao := option_map (fun hp => set_n i (new_aoverride (fst hp) (snd hp)))
                                   (override_of (Work.resolve wk));
             Work.dila := Some {| InsecureSkipVerify := Work.k wk;
                                  NetDialContext :=
                                    match override_of (Work.resolve wk) with
                                    | Some _ => true
                                    | None => false
                                    end |};
             Work.header := Work.header wk;
             Work.stopCh := Some {| buf := []; cap := Work.C wk; closed := false |} |};
     heap := [];
     wg := Work.C wk - i |}.

(** What the [range] loop of [Stop] does with the connections [ss] queued
    at close time: a close frame for each in turn, until one cannot be
    written. *)
Fixpoint close_frame_events (ss : list websocket_Conn) : list Event :=
  match ss with
  | [] => []
  | s :: rest =>
      EWriteMessage s CloseMessage ::
      match ws_WriteClose s with
      | Some err => [ELog (MWriteClose err)]
      | None => close_frame_events rest
      end
  end.

(** The connections that loop leaves in the queue. *)
Fixpoint left_queued (ss : list websocket_Conn) : list websocket_Conn :=
  match ss with
  | [] => []
  | s :: rest =>
      match ws_WriteClose s with
      | Some _ => rest
      | None => left_queued rest
      end
  end.

(** Whether every close frame can be written. *)
Definition all_writable (ss : list websocket_Conn) : bool :=
  forallb (fun s => match ws_WriteClose s with Some _ => false | None => true end) ss.

(** The sum [PrintReport] forms over the queued counters. *)
Fixpoint report_total (hp : list counter.t) (cs : list nat) (total : Z) : Z :=
  match cs with
  | [] => total
  | c :: rest =>
      match hp !! c with
      | Some cnt => report_total hp rest (int (total + counter.N cnt))
      | None => total
      end
  end.

(** Whether the event puts something on one of the two shared queues. *)
Definition is_publish (e : Event) : bool :=
  match e with
  | ESendSocket _ | ESendCounter _ => true
  | _ => false
  end.

(** The launch schedule in a trace: the launches and the pauses of the
    launching task, in order. *)
Fixpoint schedule (tr : list Event) : list Event :=
  match tr with
  | [] => []
  | EGo i :: rest => EGo i :: schedule rest
  | ESleep :: rest => ESleep :: schedule rest
  | _ :: rest => schedule rest
  end.

(** The test [i > 0 && i%w.CPS == 0] of the launch loop. *)
Definition pause_after (CPS i : Z) : bool := (0 <? i) && (Z.rem i CPS =? 0).

(** The schedule of a launch loop that runs to its end: worker [i] is
    launched, then the loop pauses if [pause_after CPS i]. *)
Definition launch_schedule (C CPS : Z) : list Event :=
  flat_map (fun i => EGo i :: if pause_after CPS i then [ESleep] else [])
           (seqZ 0 C).

(** The number of pauses in a trace. *)
Fixpoint sleeps (tr : list Event) : nat :=
  match tr with
  | [] => O
  | ESleep :: rest => S (sleeps rest)
  | _ :: rest => sleeps rest
  end.

(** ** Further projections and inputs *)

(** The remote addresses for which [dial] wrote its "override not
    applied" diagnostic, in order. *)
Fixpoint dialed_diagnostics (tr : list Event) : list string :=
  match tr with
  | [] => []
  | EStderr (MDialed raddr) :: rest => raddr :: dialed_diagnostics rest
  | _ :: rest => dialed_diagnostics rest
  end.

(** The state [setup_resolve] leaves when it installs an override on a
    [Work] whose dialer is [d]. *)
Definition with_override (host : string) (pool : list string) (d : Dialer)
    (s : World) : World :=
  on_w (Work.set_dila (Some {| InsecureSkipVerify := InsecureSkipVerify d;
                               NetDialContext := true |}))
       (on_w (Work.set_ao (Some (new_aoverride host pool))) s).

(** The sum of the totals of the counters [cs] points to. *)
Definition counters_sum (hp : list counter.t) (cs : list nat) : Z :=
  fold_right (fun c acc => match hp !! c with
                           | Some cnt => counter.N cnt + acc
                           | None => acc
                           end) 0 cs.

(** A run state with two connections queued, the first of which cannot be
    written to. *)
Definition two_queued : World :=
  put_sockets (Some {| buf := [ws_example 1; ws_example 2]; cap := 2;
                       closed := false |})
              (run_state (work_of 2 2 "wss://example.com/" "") 2).

(** The bytes the receive loop counts on a connection that delivers
    [inbound]: the payloads of the data messages up to the first read
    error or close message, the message on which [io.Copy] fails
    included. *)
Fixpoint counted (inbound : list ReadResult) : Z :=
  match inbound with
  | [] => 0
  | ReadErr _ _ :: _ => 0
  | ReadMsg messageType chunks copy_err :: rest =>
      if messageType =? CloseMessage then 0
      else total_len chunks +
           match copy_err with
           | Some _ => 0
           | None => counted rest
           end
  end.

(** Whether [inbound] ends the receive loop by itself: it holds a read
    error, a close message, or a message on which [io.Copy] fails. *)
Fixpoint ends (inbound : list ReadResult) : bool :=
  match inbound with
  | [] => false
  | ReadErr _ _ :: _ => true
  | ReadMsg messageType _ copy_err :: rest =>
      (messageType =? CloseMessage) ||
      match copy_err with
      | Some _ => true
      | None => ends rest
      end
  end.

(** No stop notification is pending on the channel. *)
Definition no_stop_pending (ch : option (chan unit)) : Prop :=
  match ch with
  | None => True
  | Some c => buf c = [] /\ closed c = false
  end.

(** The connections published on the connection queue, in order. *)
Fixpoint sent_sockets (tr : list Event) : list websocket_Conn :=
  match tr with
  | [] => []
  | ESendSocket ws :: rest => ws :: sent_sockets rest
  | _ :: rest => sent_sockets rest
  end.

(** What a worker writes while it reads: raw echo and log lines. *)
Definition is_reading (e : Event) : bool :=
  match e with
  | EStdoutRaw _ | ELog _ => true
  | _ => false
  end.


(** The target accepts every connection. *)
Definition accepts_all {env : Env} : Prop :=
  forall t network address,
    exists conn, net_Dial t network address = (Some conn, None).

(** Every connection is upgraded, and what the peer then sends ends by
    itself. *)
Definition upgrades_all {env : Env} : Prop :=
  forall t conn,
    exists ws, ws_upgrade t conn = Dialed ws /\ ends (ws_inbound ws) = true.

(** The report lines printed, in order: total and connection count. *)
Fixpoint reports (tr : list Event) : list (Z * Z) :=
  match tr with
  | [] => []
  | EStdout (MReport total C) :: rest => (total, C) :: reports rest
  | _ :: rest => reports rest
  end.

(** The bytes the workers count on the connections [wss]. *)
Definition bytes_read (wss : list websocket_Conn) : Z :=
  fold_right (fun ws acc => counted (ws_inbound ws) + acc) 0 wss.

(** The shared state of a run without override in which the workers of
    the connections [wss] have been launched, in this order, and have
    read their connections to the end. *)
Definition served_state (wk : Work.t) (wss : list websocket_Conn) : World :=
  set_heap (map (fun ws => counter.mk (int (counted (ws_inbound ws)))) wss)
    (put_counters (Some {| buf := seq 0 (length wss); cap := Work.C wk;
                           closed := false |})
       (put_sockets (Some {| buf := wss; cap := Work.C wk; closed := false |})
          (run_state wk (len wss)))).

(** * Properties *)

(** Unfold the monad and the primitives down to plain matches. *)
Ltac go_unfold :=
  cbv beta iota zeta delta
    [bind ret get put modify emit history panic os_Exit block when
     go_rem index slice_from call_net_Dial atomic_AddInt32_n].

Tactic Notation "go_unfold" "in" hyp(H) :=
  cbv beta iota zeta delta
    [bind ret get put modify emit history panic os_Exit block when
     go_rem index slice_from call_net_Dial atomic_AddInt32_n] in H.

(** Resolve the tests that have become constant. *)
Ltac go_step := cbn [negb orb andb]; cbv beta iota zeta.

(** ** Projections of the trace *)

Lemma dials_app (t1 t2 : list Event) : dials (t1 ++ t2) = dials t1 ++ dials t2.
Proof.
  induction t1 as [|e t1 IH]; [reflexivity|].
  destruct e; simpl; rewrite ?IH; reflexivity.
Qed.

Lemma launches_app (t1 t2 : list Event) :
  launches (t1 ++ t2) = launches t1 ++ launches t2.
Proof.
  induction t1 as [|e t1 IH]; [reflexivity|].
  destruct e; simpl; rewrite ?IH; reflexivity.
Qed.

Lemma schedule_app (t1 t2 : list Event) :
  schedule (t1 ++ t2) = schedule t1 ++ schedule t2.
Proof.
  induction t1 as [|e t1 IH]; [reflexivity|].
  destruct e; simpl; rewrite ?IH; reflexivity.
Qed.

Lemma fatal_dials_app (t1 t2 : list Event) :
  fatal_dials (t1 ++ t2) = fatal_dials t1 ++ fatal_dials t2.
Proof.
  induction t1 as [|e t1 IH]; [reflexivity|].
  destruct e as [| | |[]| | | | | | | | | | |]; simpl; rewrite ?IH; reflexivity.
Qed.

Lemma sleeps_app (t1 t2 : list Event) :
  sleeps (t1 ++ t2) = (sleeps t1 + sleeps t2)%nat.
Proof.
  induction t1 as [|e t1 IH]; [reflexivity|].
  destruct e; simpl; rewrite ?IH; reflexivity.
Qed.

(** ** Machine integers *)

Lemma int32_id (x : Z) : MinInt32 <= x <= MaxInt32 -> int32 x = x.
Proof.
  unfold int32, wrap, MinInt32, MaxInt32. intros Hx.
  change (2 ^ (32 - 1)) with 2147483648. change (2 ^ 32) with 4294967296.
  change (2 ^ 31) with 2147483648 in Hx.
  rewrite Z.mod_small by lia. lia.
Qed.

Lemma int_id (x : Z) : - 2 ^ 63 <= x <= MaxInt -> int x = x.
Proof.
  unfold int, wrap, MaxInt. intros Hx.
  change (2 ^ (64 - 1)) with 9223372036854775808.
  change (2 ^ 64) with 18446744073709551616.
  change (2 ^ 63) with 9223372036854775808 in Hx.
  rewrite Z.mod_small by lia. lia.
Qed.

Lemma int_add_l (a b : Z) : int (int a + b) = int (a + b).
Proof.
  unfold int, wrap.
  change (2 ^ (64 - 1)) with 9223372036854775808.
  change (2 ^ 64) with 18446744073709551616.
  f_equal.
  replace ((a + 9223372036854775808) mod 18446744073709551616
           - 9223372036854775808 + b + 9223372036854775808)
    with ((a + 9223372036854775808) mod 18446744073709551616 + b) by lia.
  rewrite Zplus_mod_idemp_l. f_equal. lia.
Qed.

Lemma len_nonneg {A : Type} (l : list A) : 0 <= len l.
Proof. unfold len. lia. Qed.

Lemma total_len_nonneg (ps : list (list Byte.byte)) : 0 <= total_len ps.
Proof.
  induction ps as [|p ps IH]; simpl; [lia|]. pose proof (len_nonneg p). lia.
Qed.

Lemma total_len_repeat (p : list Byte.byte) (count : nat) :
  total_len (repeat p count) = Z.of_nat count * len p.
Proof.
  induction count as [|count IH]; [reflexivity|].
  change (total_len (repeat p (S count))) with (len p + total_len (repeat p count)).
  rewrite IH. lia.
Qed.

(** ** counter *)

Lemma WriteAll_returns (c : counter.t) (ps : list (list Byte.byte)) :
  snd (counter.WriteAll c ps) = map (fun p => (len p, None)) ps.
Proof.
  revert c. induction ps as [|p ps IH]; intros c; [reflexivity|].
  simpl. specialize (IH {| counter.N := int (counter.N c + len p) |}).
  destruct (counter.WriteAll _ ps) as [c2 rs]. simpl in *. now rewrite IH.
Qed.

Lemma int_idem (x : Z) : int (int x) = int x.
Proof. pose proof (int_add_l x 0) as H. now rewrite !Z.add_0_r in H. Qed.

Lemma WriteAll_N (c : counter.t) (ps : list (list Byte.byte)) :
  int (counter.N c) = counter.N c ->
  counter.N (fst (counter.WriteAll c ps)) = int (counter.N c + total_len ps).
Proof.
  revert c. induction ps as [|p ps IH]; intros c Hc.
  - simpl. rewrite Z.add_0_r. now symmetry.
  - simpl. specialize (IH {| counter.N := int (counter.N c + len p) |}).
    destruct (counter.WriteAll _ ps) as [c2 rs]. simpl in *.
    rewrite IH by apply int_idem. rewrite int_add_l. f_equal. lia.
Qed.

(** C9, as amended.  For every sequence of chunks, every [Write] returns
    the length of its chunk and a nil error.  As long as the sum of the
    chunk lengths fits the [int] field (it is at most [MaxInt]), the
    running total after every prefix of the writes is the sum of the
    lengths written so far.  After chunks of sizes 5, 3 and 12 the total
    is 20. *)
Theorem counter_Write_total (ps : list (list Byte.byte)) :
  snd (counter.WriteAll (counter.mk 0) ps) = map (fun p => (len p, None)) ps /\
  (total_len ps <= MaxInt ->
   (forall j : nat,
      counter.N (fst (counter.WriteAll (counter.mk 0) (take j ps)))
      = total_len (take j ps)) /\
   counter.N (fst (counter.WriteAll (counter.mk 0) ps)) = total_len ps) /\
  (map len ps = [5; 3; 12] ->
   counter.N (fst (counter.WriteAll (counter.mk 0) ps)) = 20).
Proof.
  assert (Hpre : total_len ps <= MaxInt ->
            forall qs rs, ps = qs ++ rs ->
            counter.N (fst (counter.WriteAll (counter.mk 0) qs)) = total_len qs).
  { intros Hfit qs rs ->. rewrite WriteAll_N by reflexivity.
    change (counter.N (counter.mk 0)) with 0. rewrite Z.add_0_l.
    apply int_id.
    assert (total_len (qs ++ rs) = total_len qs + total_len rs) as Happ.
    { clear. induction qs as [|q qs IH]; simpl; [lia|]. rewrite IH. lia. }
    pose proof (total_len_nonneg qs). pose proof (total_len_nonneg rs). lia. }
  split; [apply WriteAll_returns|]. split.
  - intros Hfit. split.
    + intros j. apply (Hpre Hfit _ (drop j ps)). now rewrite take_drop.
    + apply (Hpre Hfit ps []). now rewrite app_nil_r.
  - intros Hsizes.
    assert (Htotal : total_len ps = 20).
    { destruct ps as [|a [|b [|c [|d ps]]]]; try discriminate.
      simpl in Hsizes |- *. injection Hsizes as -> -> ->. reflexivity. }
    rewrite (Hpre ltac:(rewrite Htotal; vm_compute; discriminate) ps [])
      by now rewrite app_nil_r.
    exact Htotal.
Qed.

(** C9 as stated (no bound on the input) fails on the code: after
    [2^63] one-byte writes the [int] total has wrapped to [-2^63]. *)
Lemma counter_Write_total_overflow :
  counter.N (fst (counter.WriteAll (counter.mk 0)
                    (one_byte_chunks (Z.to_nat (2 ^ 63)))))
  <> total_len (one_byte_chunks (Z.to_nat (2 ^ 63))).
Proof.
  unfold one_byte_chunks.
  rewrite WriteAll_N by reflexivity.
  rewrite total_len_repeat, Z2Nat.id by lia.
  intros H. vm_compute in H. discriminate H.
Qed.

(** C9 at a concrete input: chunks of 5, 3 and 12 bytes. *)
Lemma counter_Write_total_witness :
  let ps := [repeat Byte.x61 5; repeat Byte.x62 3; repeat Byte.x63 12] in
  (total_len ps <= MaxInt /\ map len ps = [5; 3; 12]) /\
  snd (counter.WriteAll (counter.mk 0) ps) = [(5, None); (3, None); (12, None)] /\
  counter.N (fst (counter.WriteAll (counter.mk 0) (take 2 ps))) = 8 /\
  counter.N (fst (counter.WriteAll (counter.mk 0) ps)) = 20.
Proof.
  intros ps.
  assert (H1 : total_len ps <= MaxInt) by (vm_compute; discriminate).
  assert (H2 : map len ps = [5; 3; 12]) by reflexivity.
  split; [exact (conj H1 H2)|].
  destruct (counter_Write_total ps) as (Hret & Hsum & Htwenty).
  destruct (Hsum H1) as [Hprefix _].
  split; [rewrite Hret; reflexivity|].
  split; [rewrite (Hprefix 2%nat); reflexivity | exact (Htwenty H2)].
Defined.

(** ** aoverride.dial *)

Section DialFacts.
Context {env : Env}.

(** One call for the override host, from a state whose index is not
    negative. *)
Lemma dial_match (as_ : aoverride) (t : list Event)
    (network address port a : string) :
  net_SplitHostPort address = inl (h as_, port) ->
  0 <= n as_ ->
  round_robin (addrs as_) (n as_) = Some a ->
  dial network address as_ t =
    (Ret (net_Dial t network (a +:+ ":" +:+ port)),
     set_n (int32 (n as_ + 1)) as_,
     t ++ [ENetDial network (a +:+ ":" +:+ port)]
       ++ dial_log network (a +:+ ":" +:+ port)
                   (net_Dial t network (a +:+ ":" +:+ port))).
Proof.
  intros Hsplit Hn Ha. unfold round_robin in Ha.
  assert (Hlen : 0 < len (addrs as_)).
  { unfold len. destruct (addrs as_); [discriminate Ha | simpl; lia]. }
  pose proof (Z.mod_pos_bound (n as_) _ Hlen) as Hmod.
  assert (Hz : (len (addrs as_) =? 0) = false) by (apply Z.eqb_neq; lia).
  assert (Hlo : (n as_ `mod` len (addrs as_) <? 0) = false)
    by (apply Z.ltb_ge; lia).
  assert (Hhi : (len (addrs as_) <=? n as_ `mod` len (addrs as_)) = false)
    by (apply Z.leb_gt; lia).
  unfold dial. rewrite Hsplit. go_unfold.
  rewrite String.eqb_refl, Hz, Z.rem_mod_nonneg, Hlo, Hhi, Ha by lia.
  go_step. unfold dial_log.
  destruct (net_Dial t network (a +:+ ":" +:+ port)) as [c [e|]]; simpl;
    rewrite <- ?app_assoc; reflexivity.
Qed.

Lemma round_robin_Some (pool : list string) (j : Z) :
  pool <> [] -> exists a, round_robin pool j = Some a.
Proof.
  intros Hpool. unfold round_robin.
  assert (0 < len pool) as Hlen.
  { unfold len. destruct pool; [congruence | simpl; lia]. }
  pose proof (Z.mod_pos_bound j _ Hlen) as Hmod.
  apply lookup_lt_is_Some_2. unfold len in *. lia.
Qed.

Lemma set_n_same (as_ : aoverride) : set_n (n as_) as_ = as_.
Proof. now destruct as_. Qed.

Lemma set_n_set_n (x y : Z) (as_ : aoverride) :
  set_n x (set_n y as_) = set_n x as_.
Proof. reflexivity. Qed.

(** A run of calls for the override host returns from every call and
    leaves the index at the (wrapped) number of calls made. *)
Lemma dial_seq_match (calls : list (string * string)) :
  forall (as_ : aoverride) (t : list Event),
    Forall (host_is (h as_)) calls ->
    addrs as_ <> [] ->
    0 <= n as_ <= MaxInt32 ->
    n as_ + len calls <= MaxInt32 + 1 ->
    exists rs t',
      dial_seq calls as_ t =
        (Ret rs, set_n (int32 (n as_ + len calls)) as_, t')
      /\ length rs = length calls.
Proof.
  induction calls as [|[network address] rest IH]; intros as_ t Hall Hpool Hn Hfit.
  - exists [], t. split; [|reflexivity]. simpl.
    unfold len. simpl. rewrite Z.add_0_r, int32_id, set_n_same.
    + reflexivity.
    + unfold MinInt32. lia.
  - apply Forall_cons_1 in Hall as [[port Hsplit] Hall]. simpl in Hsplit.
    destruct (round_robin_Some (addrs as_) (n as_) Hpool) as [a Ha].
    assert (len ((network, address) :: rest) = 1 + len rest) as Hlen
      by (unfold len; simpl length; lia).
    rewrite Hlen in Hfit |- *.
    pose proof (len_nonneg rest) as Hrest.
    cbn [dial_seq]. unfold bind at 1.
    rewrite (dial_match _ _ _ _ _ _ Hsplit (proj1 Hn) Ha).
    destruct rest as [|c rest'].
    + eexists _, _. split.
      * cbn [dial_seq]. go_unfold. unfold len. simpl length.
        rewrite Z.add_0_r. reflexivity.
      * reflexivity.
    + assert (1 <= len (c :: rest')) by (unfold len; simpl length; lia).
      rewrite (int32_id (n as_ + 1)) by (unfold MinInt32, MaxInt32 in *; lia).
      edestruct (IH (set_n (n as_ + 1) as_)) as (rs & t' & Hrun & Hrs).
      * exact Hall.
      * exact Hpool.
      * simpl. lia.
      * simpl. lia.
      * unfold bind. rewrite Hrun. eexists _, _. split.
        -- go_unfold. rewrite set_n_set_n. simpl n.
           replace (n as_ + 1 + len (c :: rest'))
             with (n as_ + (1 + len (c :: rest'))) by lia.
           reflexivity.
        -- simpl. now rewrite Hrs.
Qed.

(** A call for the override host from a state whose index is negative
    modulo the pool size panics on the slice index. *)
Lemma dial_match_negative (as_ : aoverride) (t : list Event)
    (network address port : string) :
  net_SplitHostPort address = inl (h as_, port) ->
  len (addrs as_) <> 0 ->
  Z.rem (n as_) (len (addrs as_)) < 0 ->
  dial network address as_ t =
    (Panic (IndexOutOfRange (Z.rem (n as_) (len (addrs as_))) (len (addrs as_))),
     as_, t).
Proof.
  intros Hsplit Hlen Hneg. unfold dial. rewrite Hsplit. go_unfold.
  rewrite String.eqb_refl. go_step.
  rewrite (proj2 (Z.eqb_neq _ _) Hlen), (proj2 (Z.ltb_lt _ _) Hneg).
  reflexivity.
Qed.

(** A call for another host never touches the index and dials the
    address as given; it panics when that dial fails. *)
Lemma dial_other (as_ : aoverride) (t : list Event)
    (network address host port : string) :
  net_SplitHostPort address = inl (host, port) ->
  host <> h as_ ->
  exists o seen',
    dial network address as_ t =
      (o, set_seen seen' as_, t ++ ENetDial network address ::
           match o with
           | Ret (Some conn, _) =>
               if slices_Contains (seen as_) (RemoteAddr conn) then []
               else [EStderr (MNoOverride network address (h as_) host);
                     EStderr (MDialed (RemoteAddr conn))]
           | _ => []
           end)
    /\ o = match net_Dial t network address with
           | (Some conn, err) => Ret (Some conn, err)
           | (None, _) => Panic NilDereference
           end.
Proof.
  intros Hsplit Hne. unfold dial. rewrite Hsplit. go_unfold.
  rewrite (proj2 (String.eqb_neq _ _) Hne). go_step.
  destruct (net_Dial t network address) as [[conn|] err].
  - destruct (slices_Contains (seen as_) (RemoteAddr conn)) eqn:Hseen; go_step.
    + exists (Ret (Some conn, err)), (seen as_). split; [|reflexivity].
      rewrite Hseen. destruct as_; reflexivity.
    + exists (Ret (Some conn, err)), (seen as_ ++ [RemoteAddr conn]).
      split; [|reflexivity].
      rewrite Hseen, <- !app_assoc. reflexivity.
  - exists (Panic NilDereference), (seen as_). split; [|reflexivity].
    destruct as_; reflexivity.
Qed.

(** C1, as amended.  With a pool of [K >= 1] addresses and a fresh
    override, consider calls of [dial] whose address has the override
    host.  For every [m] from 1 to [2^31 - 1], the [m]-th call (the one
    after the [m - 1] calls [pre]) finds the index at [m - 1], selects
    [pool[(m-1) mod K]], dials that address with the port of the
    request, returns to its caller exactly the connection and error of
    that dial (logging the error when there is one), and leaves the
    index at [m]. *)
Theorem dial_round_robin (host : string) (pool : list string)
    (t0 : list Event) (pre : list (string * string))
    (network address port : string) :
  pool <> [] ->
  Forall (host_is host) pre ->
  net_SplitHostPort address = inl (host, port) ->
  len pre < MaxInt32 ->
  exists rs as1 t1 a,
    dial_seq pre (new_aoverride host pool) t0 = (Ret rs, as1, t1) /\
    n as1 = len pre /\
    round_robin pool (len pre) = Some a /\
    dial network address as1 t1 =
      (Ret (net_Dial t1 network (a +:+ ":" +:+ port)),
       set_n (len pre + 1) as1,
       t1 ++ [ENetDial network (a +:+ ":" +:+ port)]
          ++ dial_log network (a +:+ ":" +:+ port)
                      (net_Dial t1 network (a +:+ ":" +:+ port))).
Proof.
  intros Hpool Hpre Hsplit Hm.
  pose proof (len_nonneg pre) as Hlen.
  destruct (dial_seq_match pre (new_aoverride host pool) t0)
    as (rs & t1 & Hrun & _); simpl; try assumption.
  { unfold MaxInt32. lia. }
  { lia. }
  simpl n in Hrun. rewrite Z.add_0_l, int32_id in Hrun
    by (unfold MinInt32; lia).
  destruct (round_robin_Some pool (len pre) Hpool) as [a Ha].
  exists rs, (set_n (len pre) (new_aoverride host pool)), t1, a.
  split; [exact Hrun|]. split; [reflexivity|]. split; [exact Ha|].
  rewrite (dial_match _ t1 network address port a); simpl; try assumption.
  rewrite int32_id by (unfold MinInt32; lia). reflexivity.
Qed.

(** C6.  A call of [dial] whose address has another host than the
    override host hands exactly the address it was given to [net.Dial]
    (once, and nothing else), leaves the selection index and the pool as
    they were, and returns the connection that dial produced. *)
Theorem dial_other_host (as_ : aoverride) (t : list Event)
    (network address host port : string) :
  net_SplitHostPort address = inl (host, port) ->
  host <> h as_ ->
  n (final (dial network address as_ t)) = n as_ /\
  addrs (final (dial network address as_ t)) = addrs as_ /\
  dials (events (dial network address as_ t)) = dials t ++ [(network, address)] /\
  (forall conn err,
     net_Dial t network address = (Some conn, err) ->
     outcome (dial network address as_ t) = Ret (Some conn, err)).
Proof.
  intros Hsplit Hne.
  destruct (dial_other as_ t network address host port Hsplit Hne)
    as (o & seen' & -> & Ho).
  unfold final, events, outcome. simpl.
  split; [reflexivity|]. split; [reflexivity|]. split.
  - rewrite dials_app. f_equal. simpl. f_equal.
    destruct o as [[[conn|] err]| | |]; try reflexivity.
    now destruct (slices_Contains _ _).
  - intros conn err Hnet. rewrite Hnet in Ho. exact Ho.
Qed.

(** C10 fails on the code.  Whenever the address has another host than
    the override host and [net.Dial] fails (it returns a nil connection),
    [dial] does not return the error to its caller: it calls [RemoteAddr]
    on the nil connection and panics.  The override is left as it was. *)
Theorem dial_other_host_refused (as_ : aoverride) (t : list Event)
    (network address host port : string) (err : option error) :
  net_SplitHostPort address = inl (host, port) ->
  host <> h as_ ->
  net_Dial t network address = (None, err) ->
  dial network address as_ t =
    (Panic NilDereference, as_, t ++ [ENetDial network address]).
Proof.
  intros Hsplit Hne Hnet. unfold dial. rewrite Hsplit. go_unfold.
  rewrite (proj2 (String.eqb_neq _ _) Hne). go_step.
  rewrite Hnet. reflexivity.
Qed.

End DialFacts.

Lemma same_call_host_is (count : nat) :
  Forall (host_is (env := env_accept) "example.com") (same_call count).
Proof.
  unfold same_call. induction count as [|count IH]; simpl; constructor.
  - exists "443". reflexivity.
  - exact IH.
Qed.

Lemma len_same_call (count : nat) : len (same_call count) = Z.of_nat count.
Proof. unfold len, same_call. now rewrite repeat_length. Qed.

(** C1 at a concrete input: the fifth call on a pool of three. *)
Lemma dial_round_robin_witness :
  (pool3 <> [] /\
   Forall (host_is (env := env_accept) "example.com") (same_call 4) /\
   SplitHostPort_plain "example.com:443" = inl ("example.com", "443") /\
   len (same_call 4) < MaxInt32) /\
  exists rs as1 t1 a,
    dial_seq (env := env_accept) (same_call 4)
             (new_aoverride "example.com" pool3) [] = (Ret rs, as1, t1) /\
    n as1 = len (same_call 4) /\
    round_robin pool3 (len (same_call 4)) = Some a /\
    dial (env := env_accept) "tcp" "example.com:443" as1 t1 =
      (Ret (net_accept t1 "tcp" (a +:+ ":" +:+ "443")),
       set_n (len (same_call 4) + 1) as1,
       t1 ++ [ENetDial "tcp" (a +:+ ":" +:+ "443")]
          ++ dial_log "tcp" (a +:+ ":" +:+ "443")
                      (net_accept t1 "tcp" (a +:+ ":" +:+ "443"))).
Proof.
  assert (H1 : pool3 <> []) by discriminate.
  assert (H2 : SplitHostPort_plain "example.com:443" = inl ("example.com", "443"))
    by reflexivity.
  assert (H3 : len (same_call 4) < MaxInt32) by (vm_compute; reflexivity).
  split.
  - repeat split; try assumption. apply same_call_host_is.
  - apply (dial_round_robin (env := env_accept) "example.com" pool3
             [] (same_call 4) "tcp" "example.com:443" "443" H1
             (same_call_host_is 4) H2 H3).
Defined.

(** C1 as stated (every sequence of calls) fails on the code: the
    index is an [int32], so after [2^31] calls it has wrapped to [-2^31],
    and the next call neither selects [pool[2^31 mod 3]] nor returns: the
    remainder [-2] is used as a slice index. *)
Lemma dial_round_robin_wraps :
  exists rs as1 t1,
    dial_seq (env := env_accept) (same_call (Z.to_nat (2 ^ 31)))
             (new_aoverride "example.com" pool3) [] = (Ret rs, as1, t1) /\
    n as1 = - 2 ^ 31 /\
    round_robin pool3 (len (same_call (Z.to_nat (2 ^ 31)))) = Some "10.0.0.3" /\
    dial (env := env_accept) "tcp" "example.com:443" as1 t1 =
      (Panic (IndexOutOfRange (-2) 3), as1, t1).
Proof.
  destruct (dial_seq_match (env := env_accept)
              (same_call (Z.to_nat (2 ^ 31)))
              (new_aoverride "example.com" pool3) [])
    as (rs & t1 & Hrun & _).
  - apply same_call_host_is.
  - discriminate.
  - simpl. unfold MaxInt32. lia.
  - rewrite len_same_call, Z2Nat.id by lia. simpl. unfold MaxInt32. lia.
  - rewrite len_same_call, Z2Nat.id in Hrun by lia.
    change (int32 (n (new_aoverride "example.com" pool3) + 2 ^ 31))
      with (- 2 ^ 31) in Hrun.
    eexists _, _, _. split; [exact Hrun|]. split; [reflexivity|]. split.
    + rewrite len_same_call, Z2Nat.id by lia. reflexivity.
    + rewrite (dial_match_negative (env := env_accept) _ _ _ _ "443").
      * reflexivity.
      * reflexivity.
      * discriminate.
      * reflexivity.
Qed.

(** C6 at a concrete input. *)
Lemma dial_other_host_witness :
  (SplitHostPort_plain "other.org:443" = inl ("other.org", "443") /\
   "other.org" <> h (new_aoverride "example.com" pool3)) /\
  n (final (dial (env := env_accept) "tcp" "other.org:443"
              (new_aoverride "example.com" pool3) [])) = 0.
Proof.
  assert (H1 : SplitHostPort_plain "other.org:443" = inl ("other.org", "443"))
    by reflexivity.
  assert (H2 : "other.org" <> h (new_aoverride "example.com" pool3))
    by discriminate.
  split; [split; assumption|].
  apply (dial_other_host (env := env_accept)
           (new_aoverride "example.com" pool3) [] "tcp" "other.org:443"
           "other.org" "443" H1 H2).
Defined.

(** C10 at a concrete input: the override host is [example.com] and the
    dial of [other.org:443] is refused. *)
Lemma dial_other_host_refused_witness :
  (net_SplitHostPort (Env := env_refuse) "other.org:443"
     = inl ("other.org", "443") /\
   "other.org" <> h (new_aoverride "example.com" pool3) /\
   net_Dial (Env := env_refuse) [] "tcp" "other.org:443"
     = (None, Some "connection refused")) /\
  dial (env := env_refuse) "tcp" "other.org:443"
       (new_aoverride "example.com" pool3) [] =
    (Panic NilDereference, new_aoverride "example.com" pool3,
     [] ++ [ENetDial "tcp" "other.org:443"]).
Proof.
  assert (H1 : net_SplitHostPort (Env := env_refuse) "other.org:443"
               = inl ("other.org", "443")) by reflexivity.
  assert (H2 : "other.org" <> h (new_aoverride "example.com" pool3))
    by discriminate.
  assert (H3 : net_Dial (Env := env_refuse) [] "tcp" "other.org:443"
               = (None, Some "connection refused")) by reflexivity.
  split; [repeat split; assumption|].
  apply (dial_other_host_refused (env := env_refuse)
           (new_aoverride "example.com" pool3) [] "tcp" "other.org:443"
           "other.org" "443" (Some "connection refused") H1 H2 H3).
Defined.

(** ** The launch schedule *)

Lemma launch_schedule_succ (CPS i : Z) :
  0 <= i ->
  launch_schedule (i + 1) CPS =
    launch_schedule i CPS ++
    (EGo i :: if pause_after CPS i then [ESleep] else []).
Proof.
  intros Hi. unfold launch_schedule.
  rewrite (seqZ_app 0 i 1), flat_map_app by lia.
  f_equal. change (seqZ (0 + i) 1) with [i]. simpl. now rewrite app_nil_r.
Qed.

Lemma launches_launch_schedule (CPS i : Z) :
  0 <= i -> launches (launch_schedule i CPS) = seqZ 0 i.
Proof.
  revert i. apply natlike_ind; [reflexivity|].
  intros i Hi IH. unfold Z.succ.
  rewrite launch_schedule_succ, (seqZ_app 0 i 1) by lia.
  rewrite launches_app, IH. f_equal. simpl. now destruct (pause_after CPS i).
Qed.

(** After [i] launches the loop has paused [floor((i - 1) / CPS)] times. *)
Lemma sleeps_launch_schedule (CPS i : Z) :
  1 <= CPS -> 0 <= i ->
  sleeps (launch_schedule i CPS) = Z.to_nat ((i - 1) / CPS).
Proof.
  intros HCPS. revert i. apply natlike_ind.
  - simpl. assert ((0 - 1) / CPS < 0) by (apply Z.div_lt_upper_bound; lia). lia.
  - intros i Hi IH. unfold Z.succ. rewrite launch_schedule_succ by lia.
    rewrite sleeps_app, IH. replace (i + 1 - 1) with i by lia.
    unfold pause_after.
    destruct (Z.ltb_spec 0 i) as [Hpos|Hzero]; cbn [andb].
    + rewrite Z.rem_mod_nonneg by lia.
      pose proof (Z.div_mod i CPS ltac:(lia)) as Hdm.
      pose proof (Z.mod_pos_bound i CPS ltac:(lia)) as Hmod.
      destruct (Z.eqb_spec (i mod CPS) 0) as [E|E]; simpl.
      * assert ((i - 1) / CPS = i / CPS - 1) as ->.
        { symmetry. apply (Z.div_unique _ _ _ (CPS - 1)); lia. }
        assert (1 <= i / CPS) by nia. lia.
      * assert ((i - 1) / CPS = i / CPS) as ->.
        { symmetry. apply (Z.div_unique _ _ _ (i mod CPS - 1)); lia. }
        lia.
    + assert (i = 0) as -> by lia. simpl.
      assert ((0 - 1) / CPS < 0) by (apply Z.div_lt_upper_bound; lia).
      rewrite Z.div_0_l by lia. lia.
Qed.

Lemma pauses_before_schedule (N : nat) (tr : list Event) :
  pauses_before N (schedule tr) = pauses_before N tr.
Proof.
  revert N. induction tr as [|e tr IH]; intros N; [reflexivity|].
  destruct e; simpl; rewrite ?IH; try reflexivity.
  destruct N as [|[|N]]; auto.
Qed.

Lemma pauses_before_next (t1 t2 : list Event) (x : Z) :
  pauses_before (S (length (launches t1))) (t1 ++ EGo x :: t2)
  = Some (sleeps t1).
Proof.
  induction t1 as [|e t1 IH]; [reflexivity|].
  destruct e; simpl; rewrite ?IH; reflexivity.
Qed.

(** What the launch loop does: for every [N] from 1 to [C], the [N]-th
    launch is preceded by [floor((N - 2) / CPS)] pauses (none for
    [N = 1]). *)
Lemma launch_schedule_pauses (C CPS N : Z) :
  1 <= CPS -> 1 <= N <= C ->
  pauses_before (Z.to_nat N) (launch_schedule C CPS)
  = Some (Z.to_nat ((N - 2) / CPS)).
Proof.
  intros HCPS HN.
  assert (launch_schedule C CPS =
          launch_schedule (N - 1) CPS ++
          EGo (N - 1) ::
            (if pause_after CPS (N - 1) then [ESleep] else []) ++
            flat_map (fun i => EGo i :: if pause_after CPS i then [ESleep] else [])
                     (seqZ N (C - N))) as ->.
  { unfold launch_schedule.
    replace C with ((N - 1) + (1 + (C - N))) at 1 by lia.
    rewrite (seqZ_app 0 (N - 1)), flat_map_app by lia. f_equal.
    rewrite (seqZ_app _ 1), flat_map_app by lia.
    change (seqZ (0 + (N - 1)) 1) with [N - 1]. simpl.
    rewrite app_nil_r. replace (0 + (N - 1) + 1) with N by lia.
    replace (1 + (C - N) - 1) with (C - N) by lia. reflexivity. }
  replace (Z.to_nat N) with (S (length (launches (launch_schedule (N - 1) CPS)))).
  - rewrite pauses_before_next, sleeps_launch_schedule by lia.
    replace (N - 1 - 1) with (N - 2) by lia. reflexivity.
  - rewrite launches_launch_schedule by lia.
    rewrite length_seqZ. lia.
Qed.

(** ** The override set-up *)

Lemma strings_Split_free (s : string) (c : ascii) :
  free_of c s = true -> strings_Split s c = [s].
Proof.
  induction s as [|x s IH]; [reflexivity|]. simpl.
  destruct (Ascii.eqb x c); [discriminate|]. simpl.
  intros Hfree. now rewrite IH.
Qed.

Lemma strings_Split_sep (a b : string) (c : ascii) :
  free_of c a = true ->
  strings_Split (a +:+ String c b) c = a :: strings_Split b c.
Proof.
  induction a as [|x a IH]; simpl.
  - now rewrite Ascii.eqb_refl.
  - destruct (Ascii.eqb x c); [discriminate|]. simpl.
    intros Hfree. now rewrite IH.
Qed.

(** However many commas the address part has, the pool that [Start]
    builds from [host:port:addresses] has one entry. *)
Lemma override_of_single_entry (host port addresses : string) :
  free_of ":" host = true ->
  free_of ":" port = true ->
  free_of ":" addresses = true ->
  override_of (host +:+ ":" +:+ port +:+ ":" +:+ addresses)
  = Some (host, [addresses]).
Proof.
  intros Hhost Hport Haddr. unfold override_of.
  change (host +:+ ":" +:+ port +:+ ":" +:+ addresses)
    with (host +:+ String ":" (port +:+ String ":" addresses)).
  rewrite !strings_Split_sep, strings_Split_free by assumption.
  now destruct host.
Qed.

(** The pool [Start] installs is everything after the second colon, as
    [strings.Split] on [":"] cut it. *)
Lemma setup_resolve_pool (s : World) (t : list Event) (host : string)
    (pool : list string) (d : Dialer) :
  Work.dila (w s) = Some d ->
  override_of (Work.resolve (w s)) = Some (host, pool) ->
  setup_resolve s t =
    (Ret tt,
     on_w (Work.set_dila (Some {| InsecureSkipVerify := InsecureSkipVerify d;
                                  NetDialContext := true |}))
          (on_w (Work.set_ao (Some (new_aoverride host pool))) s),
     t).
Proof.
  intros Hdila. unfold override_of, setup_resolve. go_unfold.
  destruct (String.eqb (Work.resolve (w s)) ""); [discriminate|].
  destruct (strings_Split (Work.resolve (w s)) ":") as [|hst [|prt rest]];
    try discriminate.
  intros [= -> ->]. go_step. unfold len. cbn [length].
  replace (Z.of_nat (S (S (length pool))) <=? 0) with false
    by (symmetry; apply Z.leb_gt; lia).
  replace (Z.of_nat (S (S (length pool))) <? 2) with false
    by (symmetry; apply Z.ltb_ge; lia).
  destruct s as [[] hp0 wg0]. cbn [w Work.dila] in Hdila. rewrite Hdila.
  reflexivity.
Qed.

(** ** The driver *)

Lemma for_loop_inv {St : Type} (P : Z -> St -> list Event -> Prop)
    (body : Z -> M St unit) (count : nat) :
  forall (i0 : Z) (s : St) (t : list Event),
    P i0 s t ->
    (forall i s t, i0 <= i < i0 + Z.of_nat count -> P i s t ->
       exists s' t', body i s t = (Ret tt, s', t') /\ P (i + 1) s' t') ->
    exists s' t',
      for_loop count i0 body s t = (Ret tt, s', t') /\
      P (i0 + Z.of_nat count) s' t'.
Proof.
  induction count as [|count IH]; intros i0 s t HP Hbody.
  - exists s, t. split; [reflexivity|]. now rewrite Z.add_0_r.
  - destruct (Hbody i0 s t) as (s1 & t1 & Hrun & HP1); [lia | exact HP |].
    destruct (IH (i0 + 1) s1 t1 HP1) as (s2 & t2 & Hrest & HP2).
    { intros i s' t' Hi. apply Hbody. lia. }
    exists s2, t2. split.
    + cbn [for_loop]. unfold bind. rewrite Hrun. exact Hrest.
    + replace (i0 + Z.of_nat (S count)) with (i0 + 1 + Z.of_nat count) by lia.
      exact HP2.
Qed.

Lemma on_w_set_ao_same (s : World) : on_w (Work.set_ao (Work.ao (w s))) s = s.
Proof. destruct s as [[] ? ?]. reflexivity. Qed.

Lemma put_sockets_twice v1 v2 (s : World) :
  put_sockets v1 (put_sockets v2 s) = put_sockets v1 s.
Proof. reflexivity. Qed.

Lemma put_counters_twice v1 v2 (s : World) :
  put_counters v1 (put_counters v2 s) = put_counters v1 s.
Proof. reflexivity. Qed.

Lemma put_stopCh_twice v1 v2 (s : World) :
  put_stopCh v1 (put_stopCh v2 s) = put_stopCh v1 s.
Proof. reflexivity. Qed.

(** The [range] loop of [Stop] on a closed queue holding [ss]. *)
Lemma Stop_range_closed (ss : list websocket_Conn) :
  forall (fuel : nat) (s : World) (t : list Event) (cp : Z),
    (length ss < fuel)%nat ->
    get_sockets s = Some {| buf := ss; cap := cp; closed := true |} ->
    Stop_range fuel s t =
      (Ret (negb (all_writable ss)),
       put_sockets (Some {| buf := left_queued ss; cap := cp; closed := true |}) s,
       t ++ close_frame_events ss).
Proof.
  induction ss as [|x rest IH]; intros fuel s t cp Hfuel Hq;
    (destruct fuel as [|fuel]; [simpl in Hfuel; lia|]).
  - cbn [Stop_range]. unfold recv_range. go_unfold. rewrite Hq. cbn.
    rewrite app_nil_r. f_equal. f_equal.
    unfold get_sockets in Hq. destruct s as [[] ? ?]. cbn in *. now rewrite Hq.
  - cbn [Stop_range]. unfold recv_range. go_unfold. rewrite Hq. cbn [buf].
    go_step. unfold set_buf. cbn [cap closed close_frame_events left_queued all_writable forallb].
    destruct (ws_WriteClose x) as [err|].
    + cbn. rewrite <- !app_assoc. reflexivity.
    + rewrite (IH fuel _ _ cp); [| simpl in Hfuel; lia | reflexivity].
      rewrite put_sockets_twice, <- app_assoc. reflexivity.
Qed.

(** The [range] loop of [PrintReport] on a closed queue holding [cs]. *)
Lemma PrintReport_range_closed (cs : list nat) :
  forall (fuel : nat) (s : World) (t : list Event) (cp total : Z),
    (length cs < fuel)%nat ->
    get_counters s = Some {| buf := cs; cap := cp; closed := true |} ->
    Forall (fun c => is_Some (heap s !! c)) cs ->
    PrintReport_range fuel total s t =
      (Ret (report_total (heap s) cs total),
       put_counters (Some {| buf := []; cap := cp; closed := true |}) s, t).
Proof.
  induction cs as [|c rest IH]; intros fuel s t cp total Hfuel Hq Hheap;
    (destruct fuel as [|fuel]; [simpl in Hfuel; lia|]).
  - cbn [PrintReport_range]. unfold recv_range. go_unfold. rewrite Hq. cbn.
    f_equal. f_equal.
    unfold get_counters in Hq. destruct s as [[] ? ?]. cbn in *. now rewrite Hq.
  - apply Forall_cons_1 in Hheap as [[cnt Hc] Hheap].
    cbn [PrintReport_range]. unfold recv_range. go_unfold. rewrite Hq. cbn [buf].
    go_step. cbn [heap put_counters on_w set_w report_total]. rewrite Hc.
    rewrite (IH fuel _ _ cp); [| simpl in Hfuel; lia | reflexivity | exact Hheap].
    reflexivity.
Qed.

(** [Stop] on a run state whose stop channel is empty and has room for
    [C] notifications, and whose two queues are still open. *)
Lemma Stop_trace (s : World) (t : list Event)
    (ss : list websocket_Conn) (cs : list nat) (c0 c1 c2 : Z) :
  0 <= Work.C (w s) <= c0 ->
  get_stopCh s = Some {| buf := []; cap := c0; closed := false |} ->
  get_sockets s = Some {| buf := ss; cap := c1; closed := false |} ->
  get_counters s = Some {| buf := cs; cap := c2; closed := false |} ->
  Stop s t =
    (Ret tt,
     put_sockets (Some {| buf := left_queued ss; cap := c1; closed := true |})
       (put_counters (Some {| buf := cs; cap := c2; closed := true |})
          (put_stopCh (Some {| buf := repeat tt (Z.to_nat (Work.C (w s)));
                               cap := c0; closed := false |}) s)),
     t ++ (if Work.verbose (w s) then [EStdout MStopping] else [])
       ++ repeat EStopSend (Z.to_nat (Work.C (w s)))
       ++ [ECloseSockets; ECloseCounters]
       ++ close_frame_events ss
       ++ (if Work.verbose (w s) && all_writable ss then [EStdout MStopped]
           else [])).
Proof.
  intros HC Hstop Hsock Hcnt.
  set (t1 := t ++ (if Work.verbose (w s) then [EStdout MStopping] else [])).
  destruct (for_loop_inv
              (fun i s' t' =>
                 s' = put_stopCh (Some {| buf := repeat tt (Z.to_nat i);
                                          cap := c0; closed := false |}) s /\
                 t' = t1 ++ repeat EStopSend (Z.to_nat i))
              (fun _ => send get_stopCh put_stopCh tt ;; emit EStopSend)%go
              (Z.to_nat (Work.C (w s))) 0 s t1)
    as (s' & t' & Hloop & -> & ->).
  { split.
    - cbn. unfold get_stopCh in Hstop. destruct s as [[] ? ?]. cbn in *.
      now rewrite Hstop.
    - cbn. now rewrite app_nil_r. }
  { intros i s1 t2 Hi [-> ->]. unfold send. go_unfold.
    cbn [get_stopCh put_stopCh on_w set_w w Work.stopCh Work.set_stopCh closed buf cap].
    replace (len (repeat tt (Z.to_nat i)) <? c0) with true
      by (symmetry; apply Z.ltb_lt; unfold len; rewrite repeat_length; lia).
    eexists _, _. split; [reflexivity|]. split.
    - unfold set_buf. cbn.
      replace (Z.to_nat (i + 1)) with (S (Z.to_nat i)) by lia.
      cbn [repeat]. rewrite repeat_cons. reflexivity.
    - replace (Z.to_nat (i + 1)) with (S (Z.to_nat i)) by lia.
      cbn [repeat]. rewrite repeat_cons, app_assoc. reflexivity. }
  rewrite Z.add_0_l, Nat2Z.id in *.
  unfold Stop. go_unfold. go_unfold in Hloop.
  unfold get_sockets in Hsock. unfold get_counters in Hcnt.
  unfold t1 in *. clear t1.
  destruct (Work.verbose (w s)) eqn:Hv; go_step; rewrite ?app_nil_r in *;
    rewrite Hloop; unfold close; go_unfold;
    cbn [get_sockets get_counters put_sockets put_counters put_stopCh on_w
         set_w w Work.sockets Work.counters Work.set_sockets
         Work.set_counters Work.set_stopCh];
    rewrite Hsock; cbn [closed buf cap]; go_step;
    cbn [get_sockets get_counters put_sockets put_counters put_stopCh on_w
         set_w w Work.sockets Work.counters Work.set_sockets
         Work.set_counters Work.set_stopCh];
    rewrite Hcnt; cbn [closed buf cap]; go_step;
    (erewrite Stop_range_closed; [| | reflexivity]; [| unfold queued; cbn; lia]);
    cbn [w on_w set_w Work.verbose Work.set_sockets Work.set_counters
         Work.set_stopCh put_sockets put_counters put_stopCh];
    destruct (all_writable ss); cbn [negb andb]; go_step;
    rewrite <- ?app_assoc, ?app_nil_r; reflexivity.
Qed.

(** [PrintReport] on a closed counter queue. *)
Lemma PrintReport_closed (s : World) (t : list Event) (cs : list nat) (cp : Z) :
  get_counters s = Some {| buf := cs; cap := cp; closed := true |} ->
  Forall (fun c => is_Some (heap s !! c)) cs ->
  PrintReport s t =
    (Ret tt,
     put_counters (Some {| buf := []; cap := cp; closed := true |}) s,
     t ++ [EStdout (MReport (report_total (heap s) cs 0) (Work.C (w s)))]).
Proof.
  intros Hq Hheap. unfold PrintReport. go_unfold.
  erewrite PrintReport_range_closed; [reflexivity | | exact Hq | exact Hheap].
  unfold queued. rewrite Hq. cbn. lia.
Qed.

Section RunFacts.
Context {env : Env}.

(** [Dialer.Dial] changes nothing of the shared state but the override. *)
Lemma Dialer_Dial_frame (u : string) (hd : list (string * string))
    (s : World) (t : list Event) :
  exists ao', final (Dialer_Dial u hd s t) = on_w (Work.set_ao ao') s.
Proof.
  unfold Dialer_Dial, final.
  destruct (url_hostport u) as [hp|e]; go_unfold.
  - destruct (Work.dila (w s)) as [d|]; cbn [fst snd].
    + destruct (NetDialContext d).
      * unfold ao_dial. destruct (Work.ao (w s)) as [a|] eqn:Hao.
        -- destruct (dial _ _ a t) as [[[[c [e|]]| | |] a'] t'];
             cbn [fst snd]; try (now exists (Some a')).
           destruct c; now exists (Some a').
        -- exists None. cbn. rewrite <- Hao. now rewrite on_w_set_ao_same.
      * exists (Work.ao (w s)).
        destruct (net_Dial t "tcp" hp) as [[c|] [e|]]; cbn;
          now rewrite on_w_set_ao_same.
    + exists (Work.ao (w s)). now rewrite on_w_set_ao_same.
  - exists (Work.ao (w s)). cbn. now rewrite on_w_set_ao_same.
Qed.

Lemma runWorker_failed (i : Z) (s s1 : World) (t t1 : list Event)
    (resp : option http_Response) (err : error) :
  Dialer_Dial (Work.URL (w s)) (Work.header (w s)) s t
    = (Ret (DialFailed resp err), s1, t1) ->
  (err = ErrBadHandshake -> resp <> None) ->
  exists ev,
    runWorker i s t = (Ret tt, s1, t1 ++ ELog (MFatalDial i err) :: ev) /\
    Forall (fun e => exists m, e = ELog m \/ e = EStderr m) ev /\
    fatal_dials ev = [] /\
    (err <> ErrBadHandshake -> ev = []).
Proof.
  intros Hdial Hresp. unfold runWorker. go_unfold.
  rewrite Hdial. go_step.
  destruct (String.eqb_spec err ErrBadHandshake) as [E|E].
  - destruct resp as [rsp|]; [|now destruct (Hresp E)].
    eexists. rewrite <- !app_assoc. split; [reflexivity|].
    split; [|split; [reflexivity|congruence]].
    repeat constructor; eexists; eauto.
  - exists []. repeat split; auto.
Qed.

Lemma override_of_applies (wk : Work.t) (hp : string) :
  override_applies wk hp ->
  override_of (Work.resolve wk) = None /\ Work.resolve wk = "" \/
  exists host port pool,
    override_of (Work.resolve wk) = Some (host, pool) /\
    (exists p, strings_Split (Work.resolve wk) ":" = host :: p :: pool) /\
    Work.resolve wk <> "" /\
    pool <> [] /\ net_SplitHostPort hp = inl (host, port) /\
    Work.C wk <= MaxInt32.
Proof.
  intros [Hnone | (host & port & p & pool & Hsplit & Hpool & Hhp & HC)].
  - left. unfold override_of. now rewrite Hnone.
  - right. exists host, port, pool. unfold override_of.
    destruct (String.eqb_spec (Work.resolve wk) "") as [E|E].
    + rewrite E in Hsplit. discriminate Hsplit.
    + rewrite Hsplit. eauto 10.
Qed.

Hypothesis Hrefuse : refuses_all.

(** The dial of a worker launched in [run_state wk i] fails and only
    advances the override. *)
Lemma Dialer_Dial_refused (wk : Work.t) (hp : string) (i : Z) (t : list Event) :
  url_hostport (Work.URL wk) = inl hp ->
  override_applies wk hp ->
  0 <= i < Work.C wk ->
  exists e ev,
    e <> ErrBadHandshake /\
    Dialer_Dial (Work.URL wk) (Work.header wk) (run_state wk i) t =
      (Ret (DialFailed None e),
       set_wg (Work.C wk - i) (run_state wk (i + 1)), t ++ ev) /\
    launches ev = [] /\ fatal_dials ev = [] /\ schedule ev = [].
Proof.
  intros Hurl Hov Hi. unfold Dialer_Dial. rewrite Hurl.
  destruct (override_of_applies wk hp Hov)
    as [[Hnone _] | (host & port & pool & Hsome & _ & _ & Hpool & Hhp & HC)].
  - go_unfold. unfold run_state at 1. cbn [w Work.dila]. rewrite Hnone.
    cbn [NetDialContext]. go_step.
    destruct (Hrefuse t "tcp" hp) as (e & He & Hne). rewrite He. go_step.
    exists e, [ENetDial "tcp" hp]. split; [exact Hne|].
    split; [|repeat split].
    unfold run_state, set_wg. cbn. rewrite Hnone. reflexivity.
  - go_unfold. unfold run_state at 1. cbn [w Work.dila]. rewrite Hsome.
    cbn [NetDialContext]. go_step. unfold ao_dial.
    unfold run_state at 1. cbn [w Work.ao]. rewrite Hsome. cbn [option_map fst snd].
    destruct (round_robin_Some pool i Hpool) as [a Ha].
    rewrite (dial_match _ t "tcp" hp port a); cbn [h n addrs set_n new_aoverride];
      [| exact Hhp | lia | exact Ha].
    destruct (Hrefuse t "tcp" (a +:+ ":" +:+ port)) as (e & He & Hne).
    rewrite He. go_step.
    exists e. eexists. split; [exact Hne|]. split.
    + f_equal. f_equal.
      unfold run_state, set_wg, on_w, set_w. cbn. rewrite Hsome. cbn.
      rewrite int32_id by (unfold MinInt32, MaxInt32 in *; lia). reflexivity.
    + unfold dial_log. cbn. repeat split.
Qed.

Lemma launch_refused (wk : Work.t) (hp : string) (i : Z) (t : list Event) :
  url_hostport (Work.URL wk) = inl hp ->
  override_applies wk hp ->
  Work.CPS wk <> 0 ->
  0 <= i < Work.C wk ->
  exists ev,
    launch i (run_state wk i) t = (Ret tt, run_state wk (i + 1), t ++ ev) /\
    launches ev = [i] /\ fatal_dials ev = [i] /\
    schedule ev = EGo i :: if pause_after (Work.CPS wk) i then [ESleep] else [].
Proof.
  intros Hurl Hov HCPS Hi.
  destruct (Dialer_Dial_refused wk hp i (t ++ [EGo i]) Hurl Hov Hi)
    as (e & ev & Hne & Hdial & Hl & Hf & Hs).
  destruct (runWorker_failed i (run_state wk i) _ (t ++ [EGo i]) _ None e Hdial)
    as (ev' & Hrun & _ & _ & Hnil); [congruence|].
  rewrite (Hnil Hne) in Hrun. clear Hnil ev'.
  unfold launch. go_unfold. unfold go_. go_unfold.
  rewrite Hrun. unfold wg_Add. go_unfold.
  replace (set_wg (wg (set_wg (Work.C wk - i) (run_state wk (i + 1))) + -1)
             (set_wg (Work.C wk - i) (run_state wk (i + 1))))
    with (run_state wk (i + 1))
    by (unfold run_state, set_wg; cbn; f_equal; lia).
  cbn [w run_state Work.CPS Work.verbose].
  rewrite (proj2 (Z.eqb_neq _ _) HCPS).
  unfold pause_after.
  destruct (0 <? i); go_step.
  - destruct (i `rem` Work.CPS wk =? 0); go_step.
    + destruct (Work.verbose wk); go_step; eexists; rewrite <- !app_assoc;
        (split; [reflexivity|]);
        rewrite ?launches_app, ?fatal_dials_app, ?schedule_app, Hl, Hf, Hs;
        repeat split.
    + eexists; rewrite <- !app_assoc; (split; [reflexivity|]).
      rewrite ?launches_app, ?fatal_dials_app, ?schedule_app, Hl, Hf, Hs;
        repeat split.
  - eexists; rewrite <- !app_assoc; (split; [reflexivity|]).
    rewrite ?launches_app, ?fatal_dials_app, ?schedule_app, Hl, Hf, Hs;
      repeat split.
Qed.

Lemma setup_resolve_ok (wk : Work.t) (hp : string) (s : World) (t : list Event)
    (d : Dialer) :
  override_applies wk hp ->
  Work.dila (w s) = Some d ->
  Work.resolve (w s) = Work.resolve wk ->
  setup_resolve s t =
    (Ret tt,
     match override_of (Work.resolve wk) with
     | None => s
     | Some (host, pool) =>
         on_w (Work.set_dila (Some {| InsecureSkipVerify := InsecureSkipVerify d;
                                      NetDialContext := true |}))
              (on_w (Work.set_ao (Some (new_aoverride host pool))) s)
     end, t).
Proof.
  intros Hov Hdila Hres.
  destruct (override_of_applies wk hp Hov)
    as [[Hnone Hempty] | (host & port & pool & Hsome & _)].
  - unfold setup_resolve. go_unfold. rewrite Hres, Hnone, Hempty. reflexivity.
  - rewrite Hsome. apply setup_resolve_pool; [exact Hdila | now rewrite Hres].
Qed.

Lemma Start_refused (wk : Work.t) (hp : string) (t : list Event) :
  url_hostport (Work.URL wk) = inl hp ->
  override_applies wk hp ->
  Work.CPS wk <> 0 ->
  0 <= Work.C wk ->
  Work.ao wk = None ->
  exists ev,
    Start (init_World wk) t = (Ret tt, run_state wk (Work.C wk), t ++ ev) /\
    launches ev = seqZ 0 (Work.C wk) /\ fatal_dials ev = seqZ 0 (Work.C wk) /\
    schedule ev = launch_schedule (Work.C wk) (Work.CPS wk).
Proof.
  intros Hurl Hov HCPS HC Hao.
  destruct (for_loop_inv
              (fun i s t' => s = run_state wk i /\
                             exists ev, t' = t ++ ev /\
                                        launches ev = seqZ 0 i /\
                                        fatal_dials ev = seqZ 0 i /\
                                        schedule ev = launch_schedule i (Work.CPS wk))
              launch (Z.to_nat (Work.C wk)) 0 (run_state wk 0) t)
    as (s' & t' & Hloop & -> & ev & -> & Hl & Hf & Hs).
  { split; [reflexivity|]. exists []. now rewrite app_nil_r. }
  { intros i s1 t1 Hi [-> (ev & -> & Hl & Hf & Hs)].
    destruct (launch_refused wk hp i (t ++ ev) Hurl Hov HCPS)
      as (ev' & Hrun & Hl' & Hf' & Hs'); [lia|].
    eexists _, _. split; [exact Hrun|]. split; [reflexivity|].
    exists (ev ++ ev'). split; [now rewrite app_assoc|].
    rewrite launches_app, fatal_dials_app, schedule_app, Hl, Hf, Hs, Hl', Hf', Hs'.
    rewrite launch_schedule_succ by lia.
    rewrite !(seqZ_app 0 i 1) by lia. repeat split. }
  rewrite Z2Nat.id in * by lia. rewrite Z.add_0_l in *.
  exists (ev ++ if Work.verbose wk
                then [EStdout (MWorkersStarted (Work.C wk))] else []).
  split.
  - unfold Start, make_chan. go_unfold.
    cbn [w init_World Work.C].
    rewrite (proj2 (Z.ltb_ge _ _) HC). go_step.
    erewrite (setup_resolve_ok wk hp) by (assumption || reflexivity).
    unfold wg_Add. go_unfold.
    match goal with
    | |- context [for_loop _ 0 _ ?s t] =>
        replace s with (run_state wk 0)
    end.
    + rewrite Hloop. unfold wg_Wait. go_unfold.
      assert ((wg (run_state wk (Work.C wk)) =? 0) = true) as Hwg
        by (cbn [wg run_state]; apply Z.eqb_eq; lia).
      destruct (Work.verbose wk); go_step; rewrite Hwg, ?app_assoc, ?app_nil_r;
        reflexivity.
    + clear Hloop. destruct wk. cbn in Hao. subst.
      unfold run_state, init_World, set_wg, on_w, set_w, put_stopCh,
        put_counters, put_sockets, on_w, set_w.
      cbn. destruct (override_of _) as [[host pool]|]; cbn; f_equal; lia.
  - rewrite launches_app, fatal_dials_app, schedule_app, Hl, Hf, Hs.
    destruct (Work.verbose wk); cbn; rewrite !app_nil_r; repeat split.
Qed.

(** The launch schedule of [Start], in general, on a target that refuses
    every connection: [C] launches in ascending order, the [N]-th of them
    preceded by [floor((N - 2) / CPS)] pauses. *)
Lemma Start_refused_pauses (wk : Work.t) (hp : string) (N : Z) :
  url_hostport (Work.URL wk) = inl hp ->
  override_applies wk hp ->
  1 <= Work.CPS wk ->
  1 <= N <= Work.C wk ->
  Work.ao wk = None ->
  launches (events (Start (init_World wk) [])) = seqZ 0 (Work.C wk) /\
  pauses_before (Z.to_nat N) (events (Start (init_World wk) []))
  = Some (Z.to_nat ((N - 2) / Work.CPS wk)).
Proof.
  intros Hurl Hov HCPS HN Hao.
  destruct (Start_refused wk hp [] Hurl Hov ltac:(lia) ltac:(lia) Hao)
    as (ev & -> & Hl & _ & Hs).
  unfold events. simpl. split; [exact Hl|].
  rewrite <- pauses_before_schedule, Hs.
  now apply launch_schedule_pauses.
Qed.

End RunFacts.

Section MainFacts.
Context {env : Env}.

Lemma index_Ret {St A : Type} (l : list A) (i : Z) (x : A) (s s' : St)
    (t t' : list Event) :
  index l i s t = (Ret x, s', t') -> s' = s /\ t' = t.
Proof.
  go_unfold. destruct (_ || _); [discriminate|].
  destruct (_ !! _); [|discriminate]. intros [= _ <- <-]. now split.
Qed.

Lemma parse_headers_Ret {St : Type} (hs : list string) :
  forall (hdr hdr' : list (string * string)) (s s' : St) (t t' : list Event),
    parse_headers hs hdr s t = (Ret hdr', s', t') ->
    s' = s /\ t' = t.
Proof.
  induction hs as [|hd rest IH]; intros hdr hdr' s s' t t' Hrun.
  - injection Hrun as _ <- <-. now split.
  - cbn [parse_headers] in Hrun. unfold parseInputWithRegexp in Hrun.
    destruct (len (FindStringSubmatch headerRegexp hd) <? 1).
    + unfold usageAndExit in Hrun. go_unfold in Hrun.
      destruct (negb _); discriminate Hrun.
    + unfold bind at 1 in Hrun.
      destruct (index _ 1 s t) as [[[key| | |] s1] t1] eqn:H1;
        try discriminate Hrun.
      apply index_Ret in H1 as [-> ->].
      unfold bind at 1 in Hrun.
      destruct (index _ 2 s t) as [[[value| | |] s1] t1] eqn:H2;
        try discriminate Hrun.
      apply index_Ret in H2 as [-> ->].
      eapply IH. exact Hrun.
Qed.

(** What [main] puts into the [Work] value it builds. *)
Lemma main_Work_Ret {St : Type} (fl : flag.t) (wk : Work.t) (s s' : St)
    (t t' : list Event) :
  main_Work fl s t = (Ret wk, s', t') ->
  s' = s /\ t' = t /\
  Work.C wk = flag.conc fl /\
  Work.CPS wk = (if flag.q fl =? 0 then flag.conc fl else flag.q fl) /\
  Work.resolve wk = flag.resolve fl /\
  Work.SendData wk = "" /\
  Work.ao wk = None.
Proof.
  unfold main_Work. unfold bind at 1.
  destruct (len (flag.Args fl) <? 1).
  - unfold usageAndExit. go_unfold. destruct (negb _); discriminate.
  - unfold ret at 1. unfold bind at 1.
    destruct (index (flag.Args fl) 0 s t) as [[[url| | |] s1] t1] eqn:Hidx;
      try discriminate.
    apply index_Ret in Hidx as [-> ->].
    unfold bind.
    destruct (parse_headers _ _ s t) as [[[hdr| | |] s2] t2] eqn:Hhdr;
      try discriminate.
    apply parse_headers_Ret in Hhdr as [-> ->].
    unfold ret. intros [= <- <- <-]. cbn. repeat split; reflexivity.
Qed.

End MainFacts.

Section TraceFacts.
Context {env : Env}.

(** [dial] only appends to the trace, and nothing it appends is a
    publication on a queue. *)
Lemma dial_events (network address : string) (a : aoverride) (t : list Event) :
  exists ev,
    events (dial network address a t) = t ++ ev /\
    filter is_publish ev = [].
Proof.
  unfold dial, events.
  destruct (net_SplitHostPort address) as [[host port]|e]; go_unfold.
  - destruct (negb (String.eqb host (h a))).
    + destruct (net_Dial t network address) as [[c|] err]; go_step.
      * destruct (negb (slices_Contains (seen a) (RemoteAddr c))); go_step;
          cbn [snd]; rewrite <- ?app_assoc; eexists; (split; [reflexivity|]);
          reflexivity.
      * cbn [snd]. eexists; (split; [reflexivity|]); reflexivity.
    + destruct (len (addrs a) =? 0); go_step.
      * exists []. cbn. now rewrite app_nil_r.
      * destruct ((_ <? 0) || _); go_step.
        -- exists []. cbn. now rewrite app_nil_r.
        -- destruct (addrs a !! _); go_step.
           ++ destruct (net_Dial _ _ _) as [c [e|]]; go_step; cbn [snd];
                rewrite <- ?app_assoc; eexists; (split; [reflexivity|]);
                reflexivity.
           ++ exists []. cbn. now rewrite app_nil_r.
  - cbn [snd]. eexists; (split; [reflexivity|]); reflexivity.
Qed.

Lemma Dialer_Dial_events (u : string) (hd : list (string * string))
    (s : World) (t : list Event) :
  exists ev,
    events (Dialer_Dial u hd s t) = t ++ ev /\
    filter is_publish ev = [].
Proof.
  unfold Dialer_Dial, events.
  destruct (url_hostport u) as [hp|e]; go_unfold;
    [| exists []; cbn; now rewrite app_nil_r].
  destruct (Work.dila (w s)) as [d|];
    [| exists []; cbn; now rewrite app_nil_r].
  destruct (NetDialContext d).
  - unfold ao_dial. destruct (Work.ao (w s)) as [a|];
      [| exists []; cbn; now rewrite app_nil_r].
    destruct (dial_events "tcp" hp a t) as (ev & Hev & Hpub).
    unfold events in Hev.
    destruct (dial _ _ a t) as [[[[c [e|]]| | |] a'] t']; cbn in Hev |- *;
      subst t'; try (exists ev; now split).
    destruct c; exists ev; now split.
  - destruct (net_Dial t "tcp" hp) as [[c|] [e|]]; cbn;
      eexists; (split; [reflexivity|]); reflexivity.
Qed.

End TraceFacts.

Lemma launches_repeat_EStopSend (count : nat) :
  launches (repeat EStopSend count) = [].
Proof. induction count; simpl; auto. Qed.

Lemma fatal_dials_repeat_EStopSend (count : nat) :
  fatal_dials (repeat EStopSend count) = [].
Proof. induction count; simpl; auto. Qed.

(** Dial errors that [Dialer.Dial] returns are isolated.  First part: a
    worker whose [Dialer.Dial] returns an error (with the response, when
    the error is the failed-upgrade sentinel, as the library promises)
    logs the failure and returns; it publishes nothing, and both queues
    and the counters are as they were.  Second part, for the run that
    [main] follows: for a command line that [main] accepts, with at least
    one connection and a target that refuses every connection, the
    override, if one is given, being well formed and for the host dialled,
    the run completes: all [C] workers are launched, each logs its dial
    failure, nothing is ever queued, and the report has a total of zero
    bytes for [C] websockets.  The condition on the override is needed:
    with an override for another host a refused dial panics. *)
Theorem dial_failure_is_isolated {env : Env} :
  (forall (i : Z) (s s1 : World) (t t1 : list Event)
          (resp : option http_Response) (err : error),
     Dialer_Dial (Work.URL (w s)) (Work.header (w s)) s t
       = (Ret (DialFailed resp err), s1, t1) ->
     (err = ErrBadHandshake -> resp <> None) ->
     exists ev,
       runWorker i s t
         = (Ret tt, s1, t ++ ev) /\
       filter is_publish ev = [] /\
       In (ELog (MFatalDial i err)) ev /\
       get_sockets s1 = get_sockets s /\
       get_counters s1 = get_counters s /\
       heap s1 = heap s)
  /\
  (forall (fl : flag.t) (wk : Work.t) (hp : string),
     main_Work fl zero_World [] = (Ret wk, zero_World, []) ->
     1 <= Work.C wk ->
     url_hostport (Work.URL wk) = inl hp ->
     override_applies wk hp ->
     refuses_all ->
     exists s' ev,
       main fl zero_World []
         = (Ret tt, s', ev ++ [EStdout (MReport 0 (Work.C wk))]) /\
       launches ev = seqZ 0 (Work.C wk) /\
       fatal_dials ev = seqZ 0 (Work.C wk) /\
       queued get_sockets s' = [] /\
       queued get_counters s' = [] /\
       heap s' = []).
Proof.
  split.
  - intros i s s1 t t1 resp err Hdial Hresp.
    destruct (runWorker_failed i s s1 t t1 resp err Hdial Hresp)
      as (ev & Hrun & Hev & _ & _).
    destruct (Dialer_Dial_events (Work.URL (w s)) (Work.header (w s)) s t)
      as (ev1 & Hev1 & Hpub1).
    destruct (Dialer_Dial_frame (Work.URL (w s)) (Work.header (w s)) s t)
      as (ao' & Hfr).
    rewrite Hdial in Hev1, Hfr. unfold events, final in Hev1, Hfr.
    cbn in Hev1, Hfr. subst t1 s1.
    exists (ev1 ++ ELog (MFatalDial i err) :: ev). split; [|split; [|split]].
    + rewrite Hrun, <- app_assoc. reflexivity.
    + rewrite filter_app, Hpub1. cbn.
      clear -Hev. induction Hev as [|e ev [m [-> | ->]] _ IH]; cbn; auto.
    + apply in_or_app. right. now left.
    + repeat split; reflexivity.
  - intros fl wk hp Hwork HC Hurl Hov Hrefuse.
    destruct (main_Work_Ret fl wk _ _ _ _ Hwork)
      as (_ & _ & HCeq & HCPS & _ & _ & Hao).
    assert (Work.CPS wk <> 0) as HCPS0.
    { rewrite HCPS, <- HCeq. destruct (Z.eqb_spec (flag.q fl) 0); lia. }
    destruct (Start_refused Hrefuse wk hp [] Hurl Hov HCPS0 ltac:(lia) Hao)
      as (ev & HStart & Hl & Hf & _).
    unfold main. unfold bind at 1. rewrite Hwork.
    unfold bind at 1, modify.
    change (set_w wk zero_World) with (init_World wk).
    unfold bind at 1. rewrite HStart.
    unfold bind at 1, go_.
    rewrite (Stop_trace (run_state wk (Work.C wk)) ([] ++ ev) [] []
               (Work.C wk) (Work.C wk) (Work.C wk));
      [| cbn; lia | reflexivity | reflexivity | reflexivity].
    erewrite PrintReport_closed; [| reflexivity | constructor].
    cbn [report_total close_frame_events w run_state Work.C put_sockets
         put_counters put_stopCh on_w set_w Work.set_sockets
         Work.set_counters Work.set_stopCh Work.verbose app].
    eexists _, _. split; [reflexivity|].
    rewrite !launches_app, !fatal_dials_app, Hl, Hf,
      launches_repeat_EStopSend, fatal_dials_repeat_EStopSend.
    split; [|split; [|repeat split]].
    + destruct (Work.verbose wk); cbn; now rewrite app_nil_r.
    + destruct (Work.verbose wk); cbn; now rewrite app_nil_r.
Qed.

(** At a concrete input: three workers, every dial refused. *)
Lemma dial_failure_is_isolated_witness :
  (main_Work (env := env_refuse) (flags_of 3 "" "" "wss://example.com/")
             zero_World []
     = (Ret (work_of 3 3 "wss://example.com/" ""), zero_World, []) /\
   1 <= Work.C (work_of 3 3 "wss://example.com/" "") /\
   url_hostport (Env := env_refuse)
     (Work.URL (work_of 3 3 "wss://example.com/" "")) = inl "example.com:443" /\
   override_applies (env := env_refuse) (work_of 3 3 "wss://example.com/" "")
     "example.com:443" /\
   refuses_all (env := env_refuse)) /\
  exists s' ev,
    main (env := env_refuse) (flags_of 3 "" "" "wss://example.com/")
         zero_World []
      = (Ret tt, s', ev ++ [EStdout (MReport 0 3)]) /\
    fatal_dials ev = [0; 1; 2].
Proof.
  assert (H1 : main_Work (env := env_refuse)
                 (flags_of 3 "" "" "wss://example.com/") zero_World []
               = (Ret (work_of 3 3 "wss://example.com/" ""), zero_World, []))
    by reflexivity.
  assert (H2 : 1 <= Work.C (work_of 3 3 "wss://example.com/" ""))
    by (simpl; lia).
  assert (H3 : url_hostport (Env := env_refuse)
                 (Work.URL (work_of 3 3 "wss://example.com/" ""))
               = inl "example.com:443") by reflexivity.
  assert (H4 : override_applies (env := env_refuse)
                 (work_of 3 3 "wss://example.com/" "") "example.com:443")
    by (left; reflexivity).
  assert (H5 : refuses_all (env := env_refuse)).
  { intros t network address. exists "connection refused".
    split; [reflexivity | discriminate]. }
  split; [repeat split; assumption|].
  destruct (proj2 (dial_failure_is_isolated (env := env_refuse))
              (flags_of 3 "" "" "wss://example.com/")
              (work_of 3 3 "wss://example.com/" "") "example.com:443"
              H1 H2 H3 H4 H5)
    as (s' & ev & Hmain & _ & Hfatal & _).
  exists s', ev. split; [exact Hmain | exact Hfatal].
Defined.

(** C7 fails on the code.  With an override for another host than the one
    dialled ([-resolve example.com:443:10.0.0.1], URL for [other.org]) and
    a target that refuses every connection, the first dial that fails
    aborts the run: [dial] calls [RemoteAddr] on the nil connection and
    panics, no dial failure is logged and no report is printed.  Every
    worker takes this path in the state [Start] sets up, whichever dials
    first.  Against the same target without [-resolve] the four failures
    are logged and the run ends with the report of zero bytes. *)
Theorem main_refused_dial_aborts_run :
  outcome (main (env := env_other_refuse)
             (flags_of 4 "" "example.com:443:10.0.0.1" "wss://other.org/")
             zero_World [])
    = Panic NilDereference /\
  events (main (env := env_other_refuse)
            (flags_of 4 "" "example.com:443:10.0.0.1" "wss://other.org/")
            zero_World [])
    = [EGo 0; ENetDial "tcp" "other.org:443"] /\
  (forall (i : Z) (t : list Event),
     runWorker (env := env_other_refuse) i
       (run_state (work_of 4 4 "wss://other.org/" "example.com:443:10.0.0.1") 0) t
     = (Panic NilDereference,
        run_state (work_of 4 4 "wss://other.org/" "example.com:443:10.0.0.1") 0,
        t ++ [ENetDial "tcp" "other.org:443"])) /\
  outcome (main (env := env_other_refuse) (flags_of 4 "" "" "wss://other.org/")
             zero_World [])
    = Ret tt /\
  length (fatal_dials (events (main (env := env_other_refuse)
                                 (flags_of 4 "" "" "wss://other.org/")
                                 zero_World [])))
    = 4%nat /\
  reports (events (main (env := env_other_refuse)
                     (flags_of 4 "" "" "wss://other.org/") zero_World []))
    = [(0, 4)].
Proof. repeat apply conj; reflexivity. Qed.

(** ** Runs of the driver on concrete inputs *)

(** C2 fails on the code.  With [-c 3 -q 2] the three workers are launched
    in ascending order, but the first pause comes after the third launch:
    the test [i%w.CPS == 0] is made on the index of the worker just
    started, when [i + 1] workers are running.  No pause precedes the
    third launch, where the claim has [floor((3-1)/2) = 1]; in general
    the [N]-th launch is preceded by [floor((N-2)/rate)] pauses
    ([Start_refused_pauses]). *)
Theorem Start_pause_after_third_launch :
  launches (events (Start (env := env_refuse)
                      (init_World (work_of 3 2 "wss://example.com/" "")) []))
    = [0; 1; 2] /\
  pauses_before 3 (events (Start (env := env_refuse)
                             (init_World (work_of 3 2 "wss://example.com/" "")) []))
    = Some 0%nat /\
  pauses_before 3 (events (Start (env := env_refuse)
                             (init_World (work_of 3 2 "wss://example.com/" "")) []))
    <> Some ((3 - 1) / 2)%nat.
Proof. repeat apply conj; try reflexivity. discriminate. Qed.

(** C3 fails on the code.  [Start] splits the override on [":"] only, so
    [-resolve example.com:443:10.0.0.1,10.0.0.2] yields a pool with the
    single entry ["10.0.0.1,10.0.0.2"], and all four workers dial
    ["10.0.0.1,10.0.0.2:443"]. *)
Theorem Start_resolve_comma_not_split :
  option_map addrs
    (Work.ao (w (final (Start (env := env_refuse)
                          (init_World (work_of 4 4 "wss://example.com/"
                                         "example.com:443:10.0.0.1,10.0.0.2"))
                          []))))
    = Some ["10.0.0.1,10.0.0.2"] /\
  dials (events (Start (env := env_refuse)
                   (init_World (work_of 4 4 "wss://example.com/"
                                  "example.com:443:10.0.0.1,10.0.0.2"))
                   []))
    = [("tcp", "10.0.0.1,10.0.0.2:443"); ("tcp", "10.0.0.1,10.0.0.2:443");
       ("tcp", "10.0.0.1,10.0.0.2:443"); ("tcp", "10.0.0.1,10.0.0.2:443")].
Proof. repeat apply conj; reflexivity. Qed.

(** C4 fails on the code.  Two workers have connected and finished; at
    close time both connections are queued.  [Stop] sends the two stop
    notifications and closes both queues, then fails to write the close
    frame to the first connection, logs, and returns: the second
    connection is left in the queue and never gets a close frame. *)
Theorem Stop_returns_at_first_write_error :
  let r := (Start (env := env_accept) ;;
            Stop)%go
           (init_World (work_of 2 2 "wss://example.com/" "")) [] in
  outcome r = Ret tt /\
  drop 8 (events r) =
    [EStopSend; EStopSend; ECloseSockets; ECloseCounters;
     EWriteMessage (ws_example 1) CloseMessage;
     ELog (MWriteClose "broken pipe")] /\
  close_frames (events r) = [ws_example 1] /\
  queued get_sockets (final r) = [ws_example 2].
Proof. repeat apply conj; reflexivity. Qed.

(** C5 fails on the code.  With [-d hello] and two workers whose dials
    succeed, the run completes and no worker ever asks for a writer or
    writes the payload: [SendData] is empty in the [Work] that [main]
    builds. *)
Theorem main_never_sends_payload :
  let r := main (env := env_accept) (flags_of 2 "hello" "" "wss://example.com/")
             zero_World [] in
  outcome r = Ret tt /\
  Work.SendData (w (final r)) = "" /\
  filter is_payload_write (events r) = [] /\
  take 4 (events r) =
    [EGo 0; ENetDial "tcp" "example.com:443"; ESendSocket (ws_example 1);
     ESendCounter 0].
Proof. repeat apply conj; reflexivity. Qed.

(** C8 fails on the code.  [-resolve example.com] makes [Start] panic on
    [r[2:]] with nothing written to standard error and without
    [os.Exit(1)]; [-resolve example.com:443] is accepted with an empty
    pool, the first worker is launched, and its dial panics on the
    remainder by the pool size; when the URL is for another host the same
    override is silently accepted and all four connections are opened. *)
Theorem main_malformed_resolve :
  outcome (main (env := env_refuse) (flags_of 4 "" "example.com" "wss://example.com/")
             zero_World [])
    = Panic (SliceBoundsOutOfRange 2 1) /\
  events (main (env := env_refuse) (flags_of 4 "" "example.com" "wss://example.com/")
            zero_World [])
    = [] /\
  outcome (main (env := env_refuse) (flags_of 4 "" "example.com:443" "wss://example.com/")
             zero_World [])
    = Panic IntegerDivideByZero /\
  events (main (env := env_refuse) (flags_of 4 "" "example.com:443" "wss://example.com/")
            zero_World [])
    = [EGo 0] /\
  outcome (main (env := env_other) (flags_of 4 "" "example.com:443" "wss://other.org/")
             zero_World [])
    = Ret tt /\
  dials (events (main (env := env_other)
                   (flags_of 4 "" "example.com:443" "wss://other.org/")
                   zero_World []))
    = [("tcp", "other.org:443"); ("tcp", "other.org:443");
       ("tcp", "other.org:443"); ("tcp", "other.org:443")].
Proof. repeat apply conj; reflexivity. Qed.

(** Were [SendData] set, a failing [NextWriter] would not leave the worker
    running either: it logs, then writes to the nil writer and panics. *)
Lemma runWorker_write_error_panics :
  let wk := Work.mk 0 1 1 20 "wss://example.com/" "" "hello" false false false
              (Some {| buf := []; cap := 1; closed := false |})
              (Some {| buf := []; cap := 1; closed := false |})
              None
              (Some {| InsecureSkipVerify := false; NetDialContext := false |})
              []
              (Some {| buf := []; cap := 1; closed := false |}) in
  let r := runWorker (env := env_no_writer) 0 (init_World wk) [] in
  outcome r = Panic NilDereference /\
  filter is_payload_write (events r)
    = [ENextWriter {| ws_id := 1; ws_NextWriter := Some "write: broken pipe";
                      ws_inbound := [ReadErr 0 "unexpected EOF"];
                      ws_WriteClose := None |} BinaryMessage] /\
  In (ELog (MErrorWriting "write: broken pipe")) (events r).
Proof.
  repeat apply conj; try reflexivity. simpl. tauto.
Qed.

(** * Further properties of the code *)

(** ** aoverride.dial: the fatal paths and the diagnostics *)

Lemma dialed_diagnostics_app (t1 t2 : list Event) :
  dialed_diagnostics (t1 ++ t2) = dialed_diagnostics t1 ++ dialed_diagnostics t2.
Proof.
  induction t1 as [|e t1 IH]; [reflexivity|].
  destruct e as [| |[]| | | | | | | | | | | |]; simpl; rewrite ?IH; reflexivity.
Qed.

Lemma slices_Contains_false (l : list string) (x : string) :
  slices_Contains l x = false -> ~ In x l.
Proof.
  unfold slices_Contains. intros Hno Hin.
  assert (existsb (String.eqb x) l = true) as Hyes.
  { apply existsb_exists. exists x. split; [exact Hin | apply String.eqb_refl]. }
  congruence.
Qed.

Section DialExtras.
Context {env : Env}.

(** X1.  With an empty pool, a call of [dial] for the override host
    panics on the remainder by the pool size: nothing is dialed and the
    override is left as it was. *)
Theorem dial_empty_pool_panics (as_ : aoverride) (t : list Event)
    (network address port : string) :
  net_SplitHostPort address = inl (h as_, port) ->
  addrs as_ = [] ->
  dial network address as_ t = (Panic IntegerDivideByZero, as_, t).
Proof.
  intros Hsplit Hpool. unfold dial. rewrite Hsplit. go_unfold.
  rewrite String.eqb_refl, Hpool. reflexivity.
Qed.

(** One call keeps the log of seen addresses free of duplicates and in
    step with the diagnostics written. *)
Lemma dial_seen_step (network address : string) (a : aoverride) (t : list Event) :
  exists new,
    seen (final (dial network address a t)) = seen a ++ new /\
    dialed_diagnostics (events (dial network address a t))
      = dialed_diagnostics t ++ new /\
    (NoDup (seen a) -> NoDup (seen a ++ new)).
Proof.
  unfold dial, final, events.
  destruct (net_SplitHostPort address) as [[host port]|e]; go_unfold.
  - destruct (negb (String.eqb host (h a))).
    + destruct (net_Dial t network address) as [[c|] err]; go_step.
      * destruct (slices_Contains (seen a) (RemoteAddr c)) eqn:Hseen; go_step;
          cbn [fst snd negb].
        -- exists []. rewrite !app_nil_r, dialed_diagnostics_app. cbn.
           rewrite app_nil_r. auto.
        -- exists [RemoteAddr c]. cbn [fst snd set_seen seen].
           rewrite !dialed_diagnostics_app. cbn. rewrite ?app_nil_r.
           split; [reflexivity|]. split; [reflexivity|].
           intros Hnd. apply NoDup_app. split; [exact Hnd|]. split.
           ++ intros x Hx Hin. apply list_elem_of_In in Hx, Hin.
              destruct Hin as [<-|[]].
              exact (slices_Contains_false _ _ Hseen Hx).
           ++ apply NoDup_singleton.
      * exists []. cbn. rewrite !app_nil_r, dialed_diagnostics_app. cbn.
        rewrite app_nil_r. auto.
    + destruct (len (addrs a) =? 0); go_step;
        [exists []; cbn; rewrite !app_nil_r; auto|].
      destruct ((_ <? 0) || _); go_step;
        [exists []; cbn; rewrite !app_nil_r; auto|].
      destruct (addrs a !! _); go_step;
        [|exists []; cbn; rewrite !app_nil_r; auto].
      destruct (net_Dial _ _ _) as [c [e|]]; go_step; cbn [fst snd];
        exists []; cbn; rewrite !app_nil_r, !dialed_diagnostics_app; cbn;
        rewrite ?app_nil_r; auto.
  - exists []. cbn. rewrite !app_nil_r, dialed_diagnostics_app. cbn.
    rewrite app_nil_r. auto.
Qed.

Lemma dial_seq_seen (calls : list (string * string)) :
  forall (a : aoverride) (t : list Event),
    dialed_diagnostics t = seen a ->
    NoDup (seen a) ->
    dialed_diagnostics (events (dial_seq calls a t))
      = seen (final (dial_seq calls a t)) /\
    NoDup (seen (final (dial_seq calls a t))).
Proof.
  induction calls as [|[network address] rest IH]; intros a t Hdiag Hnd.
  - now split.
  - destruct (dial_seen_step network address a t) as (new & Hseen & Hev & Hnd').
    cbn [dial_seq]. unfold bind, ret.
    unfold final, events in *.
    destruct (dial network address a t) as [[[r| | |] a1] t1]; cbn in Hseen, Hev |- *;
      try (rewrite Hseen, Hev, Hdiag; split; [reflexivity | now apply Hnd']).
    specialize (IH a1 t1).
    destruct (dial_seq rest a1 t1) as [[[rs| | |] a2] t2]; cbn in IH |- *;
      apply IH; rewrite ?Hseen, ?Hev, ?Hdiag; auto.
Qed.

(** X2.  Over any sequence of calls of [dial] on a fresh override, however
    it ends, the remote addresses named in the "override not applied"
    diagnostics are exactly the addresses recorded in [seen], and none is
    reported twice. *)
Theorem dial_diagnostics_once (calls : list (string * string))
    (host : string) (pool : list string) :
  dialed_diagnostics (events (dial_seq calls (new_aoverride host pool) []))
    = seen (final (dial_seq calls (new_aoverride host pool) [])) /\
  NoDup (dialed_diagnostics (events (dial_seq calls (new_aoverride host pool) []))).
Proof.
  destruct (dial_seq_seen calls (new_aoverride host pool) [])
    as [Hdiag Hnd]; [reflexivity | apply NoDup_nil_2 |].
  split; [exact Hdiag | now rewrite Hdiag].
Qed.
End DialExtras.

(** X1 at a concrete input: the pool that [-resolve example.com:443]
    leaves. *)
Lemma dial_empty_pool_panics_witness :
  (net_SplitHostPort (Env := env_refuse) "example.com:443"
     = inl (h (new_aoverride "example.com" []), "443") /\
   addrs (new_aoverride "example.com" []) = []) /\
  dial (env := env_refuse) "tcp" "example.com:443"
       (new_aoverride "example.com" []) []
    = (Panic IntegerDivideByZero, new_aoverride "example.com" [], []).
Proof.
  assert (H1 : net_SplitHostPort (Env := env_refuse) "example.com:443"
               = inl (h (new_aoverride "example.com" []), "443"))
    by reflexivity.
  assert (H2 : addrs (new_aoverride "example.com" []) = []) by reflexivity.
  split; [split; assumption|].
  apply (dial_empty_pool_panics (env := env_refuse)
           (new_aoverride "example.com" []) [] "tcp" "example.com:443" "443"
           H1 H2).
Defined.

(** ** The override set-up of Start *)

Lemma strings_Split_concat (c : ascii) (parts : list string) :
  parts <> [] ->
  Forall (fun p => free_of c p = true) parts ->
  strings_Split (String.concat (String c EmptyString) parts) c = parts.
Proof.
  induction parts as [|p rest IH]; [congruence|]. intros _ Hfree.
  apply Forall_cons_1 in Hfree as [Hp Hrest].
  destruct rest as [|q rest].
  - simpl. now apply strings_Split_free.
  - change (String.concat (String c EmptyString) (p :: q :: rest))
      with (p +:+ String c (String.concat (String c EmptyString) (q :: rest))).
    rewrite strings_Split_sep by exact Hp. f_equal.
    apply IH; [discriminate | exact Hrest].
Qed.

(** X3.  For a [-resolve] value [host:port:a1:...:ak] whose parts contain
    no colon, on a [Work] whose dialer has been created (as [Start] does
    just before), the override set-up installs an override for [host]
    whose pool is [a1, ..., ak] in that order (empty when [k = 0]) with
    the selection index at zero and nothing seen, and makes its [dial]
    the dialer's [NetDialContext], keeping the dialer's TLS setting.  The
    port part is not looked at, and nothing else changes. *)
Theorem setup_resolve_colon_list (s : World) (t : list Event)
    (host port : string) (pool : list string) (d : Dialer) :
  free_of ":" host = true ->
  free_of ":" port = true ->
  Forall (fun a => free_of ":" a = true) pool ->
  Work.resolve (w s) = String.concat ":" (host :: port :: pool) ->
  Work.dila (w s) = Some d ->
  setup_resolve s t = (Ret tt, with_override host pool d s, t) /\
  Work.ao (w (with_override host pool d s))
    = Some {| addrs := pool; n := 0; h := host; seen := [] |} /\
  Work.dila (w (with_override host pool d s))
    = Some {| InsecureSkipVerify := InsecureSkipVerify d;
              NetDialContext := true |}.
Proof.
  intros Hhost Hport Hpool Hres Hdila.
  split; [|split; destruct s as [[] ? ?]; reflexivity].
  unfold with_override.
  apply setup_resolve_pool; [exact Hdila|]. unfold override_of. rewrite Hres.
  rewrite strings_Split_concat; [| discriminate | repeat constructor; assumption].
  change (String.concat ":" (host :: port :: pool))
    with (host +:+ String ":" (String.concat ":" (port :: pool))).
  now destruct host.
Qed.

Lemma setup_resolve_colon_list_witness :
  let s := on_w (Work.set_dila (Some {| InsecureSkipVerify := true;
                                        NetDialContext := false |}))
             (init_World (work_of 4 4 "wss://example.com/"
                            "example.com:443:10.0.0.1:10.0.0.2")) in
  (free_of ":" "example.com" = true /\
   free_of ":" "443" = true /\
   Forall (fun a => free_of ":" a = true) ["10.0.0.1"; "10.0.0.2"] /\
   Work.resolve (w s)
     = String.concat ":" ["example.com"; "443"; "10.0.0.1"; "10.0.0.2"] /\
   Work.dila (w s) = Some {| InsecureSkipVerify := true;
                             NetDialContext := false |}) /\
  outcome (setup_resolve s []) = Ret tt /\
  Work.ao (w (final (setup_resolve s [])))
    = Some {| addrs := ["10.0.0.1"; "10.0.0.2"]; n := 0; h := "example.com";
              seen := [] |} /\
  Work.dila (w (final (setup_resolve s [])))
    = Some {| InsecureSkipVerify := true; NetDialContext := true |}.
Proof.
  intros s.
  assert (H1 : free_of ":" "example.com" = true) by reflexivity.
  assert (H2 : free_of ":" "443" = true) by reflexivity.
  assert (H3 : Forall (fun a => free_of ":" a = true) ["10.0.0.1"; "10.0.0.2"])
    by (repeat constructor).
  assert (H4 : Work.resolve (w s)
               = String.concat ":" ["example.com"; "443"; "10.0.0.1"; "10.0.0.2"])
    by reflexivity.
  assert (H5 : Work.dila (w s) = Some {| InsecureSkipVerify := true;
                                         NetDialContext := false |})
    by reflexivity.
  split; [exact (conj H1 (conj H2 (conj H3 (conj H4 H5))))|].
  destruct (setup_resolve_colon_list s [] "example.com" "443"
              ["10.0.0.1"; "10.0.0.2"] _ H1 H2 H3 H4 H5)
    as (Hrun & Hao & Hdila).
  rewrite Hrun. unfold outcome, final. cbn [fst snd].
  split; [reflexivity|]. split; [exact Hao | exact Hdila].
Defined.

(** X4.  A non-empty [-resolve] value without a colon makes [Start] panic
    on [r[2:]]; nothing is installed and nothing is printed. *)
Theorem setup_resolve_no_colon_panics (s : World) (t : list Event) :
  Work.resolve (w s) <> "" ->
  free_of ":" (Work.resolve (w s)) = true ->
  setup_resolve s t = (Panic (SliceBoundsOutOfRange 2 1), s, t).
Proof.
  intros Hne Hfree. unfold setup_resolve. go_unfold.
  rewrite (proj2 (String.eqb_neq _ _) Hne), strings_Split_free by exact Hfree.
  reflexivity.
Qed.

Lemma setup_resolve_no_colon_panics_witness :
  (Work.resolve (w (init_World (work_of 4 4 "wss://example.com/" "example.com")))
     <> "" /\
   free_of ":" (Work.resolve
                  (w (init_World (work_of 4 4 "wss://example.com/" "example.com"))))
     = true) /\
  setup_resolve (init_World (work_of 4 4 "wss://example.com/" "example.com")) []
    = (Panic (SliceBoundsOutOfRange 2 1),
       init_World (work_of 4 4 "wss://example.com/" "example.com"), []).
Proof.
  assert (H1 : Work.resolve
                 (w (init_World (work_of 4 4 "wss://example.com/" "example.com")))
               <> "") by discriminate.
  assert (H2 : free_of ":" (Work.resolve
                 (w (init_World (work_of 4 4 "wss://example.com/" "example.com"))))
               = true) by reflexivity.
  split; [split; assumption|].
  apply (setup_resolve_no_colon_panics _ [] H1 H2).
Defined.

(** ** Stop and PrintReport *)

(** X5.  On a run state whose stop channel is empty with room for [C]
    notifications and whose two queues are open, [Stop] returns after
    having sent exactly [C] stop notifications, closed the connection
    queue and then the counter queue, and written close frames to the
    queued connections in queue order up to and including the first one
    that cannot be written, whose error it logs.  The stop channel then
    holds the [C] notifications, the counter queue keeps its entries, and
    the connections after the failed one stay queued. *)
Theorem Stop_sends_closes_frames (s : World) (t : list Event)
    (ss : list websocket_Conn) (cs : list nat) (c0 c1 c2 : Z) :
  0 <= Work.C (w s) <= c0 ->
  get_stopCh s = Some {| buf := []; cap := c0; closed := false |} ->
  get_sockets s = Some {| buf := ss; cap := c1; closed := false |} ->
  get_counters s = Some {| buf := cs; cap := c2; closed := false |} ->
  Stop s t =
    (Ret tt,
     put_sockets (Some {| buf := left_queued ss; cap := c1; closed := true |})
       (put_counters (Some {| buf := cs; cap := c2; closed := true |})
          (put_stopCh (Some {| buf := repeat tt (Z.to_nat (Work.C (w s)));
                               cap := c0; closed := false |}) s)),
     t ++ (if Work.verbose (w s) then [EStdout MStopping] else [])
       ++ repeat EStopSend (Z.to_nat (Work.C (w s)))
       ++ [ECloseSockets; ECloseCounters]
       ++ close_frame_events ss
       ++ (if Work.verbose (w s) && all_writable ss then [EStdout MStopped]
           else [])).
Proof. intros HC Hstop Hsock Hcnt. now apply Stop_trace. Qed.

Lemma Stop_sends_closes_frames_witness :
  (0 <= Work.C (w two_queued) <= 2 /\
   get_stopCh two_queued = Some {| buf := []; cap := 2; closed := false |} /\
   get_sockets two_queued
     = Some {| buf := [ws_example 1; ws_example 2]; cap := 2; closed := false |} /\
   get_counters two_queued = Some {| buf := []; cap := 2; closed := false |}) /\
  events (Stop two_queued [])
    = [EStopSend; EStopSend; ECloseSockets; ECloseCounters;
       EWriteMessage (ws_example 1) CloseMessage;
       ELog (MWriteClose "broken pipe")].
Proof.
  assert (H1 : 0 <= Work.C (w two_queued) <= 2) by (simpl; lia).
  assert (H2 : get_stopCh two_queued
               = Some {| buf := []; cap := 2; closed := false |}) by reflexivity.
  assert (H3 : get_sockets two_queued
               = Some {| buf := [ws_example 1; ws_example 2]; cap := 2;
                         closed := false |}) by reflexivity.
  assert (H4 : get_counters two_queued
               = Some {| buf := []; cap := 2; closed := false |}) by reflexivity.
  split; [exact (conj H1 (conj H2 (conj H3 H4)))|].
  rewrite (Stop_sends_closes_frames two_queued [] _ _ 2 2 2 H1 H2 H3 H4).
  reflexivity.
Defined.

(** [Stop] cannot get past its first send when the stop channel is nil or
    full. *)
Lemma Stop_parks (s : World) (t : list Event) :
  1 <= Work.C (w s) ->
  (get_stopCh s = None \/
   exists c, get_stopCh s = Some c /\ closed c = false /\ cap c <= len (buf c)) ->
  Stop s t =
    (Blocked, s, t ++ if Work.verbose (w s) then [EStdout MStopping] else []).
Proof.
  intros HC Hch. unfold Stop. go_unfold.
  destruct (Z.to_nat (Work.C (w s))) as [|k] eqn:Hk; [lia|].
  cbn [for_loop]. unfold send. go_unfold.
  destruct (Work.verbose (w s)); go_step;
    (destruct Hch as [Hnil | (c & Hc & Hopen & Hfull)];
     [ rewrite Hnil; rewrite ?app_nil_r; reflexivity
     | rewrite Hc, Hopen, (proj2 (Z.ltb_ge _ _) Hfull);
       rewrite ?app_nil_r; reflexivity ]).
Qed.

(** X6.  [Stop] is not re-entrant.  Called again after a first call that
    ran on the state [Start] sets up (a stop channel of capacity [C]),
    with no notification consumed in between, the second call never
    completes: for [C >= 1] it parks on its first send, the stop channel
    being full; for [C = 0] it panics on closing the closed connection
    queue.  Apart from its "stopping" line it adds nothing to the
    trace. *)
Theorem Stop_twice (s : World) (t : list Event)
    (ss : list websocket_Conn) (cs : list nat) (c1 c2 : Z) :
  0 <= Work.C (w s) ->
  get_stopCh s = Some {| buf := []; cap := Work.C (w s); closed := false |} ->
  get_sockets s = Some {| buf := ss; cap := c1; closed := false |} ->
  get_counters s = Some {| buf := cs; cap := c2; closed := false |} ->
  outcome ((Stop ;; Stop) s t)
    = (if Work.C (w s) =? 0 then Panic CloseOfClosedChannel else Blocked) /\
  events ((Stop ;; Stop) s t)
    = events (Stop s t)
        ++ (if Work.verbose (w s) then [EStdout MStopping] else []).
Proof.
  intros HC Hstop Hsock Hcnt.
  unfold bind at 1. unfold bind at 1.
  rewrite (Stop_trace s t ss cs (Work.C (w s)) c1 c2) by (lia || assumption).
  unfold outcome, events. cbn [fst snd].
  destruct (Z.eqb_spec (Work.C (w s)) 0) as [Hzero|Hpos].
  - unfold Stop, close. go_unfold.
    cbn [w put_sockets put_counters put_stopCh on_w set_w Work.C
         Work.verbose Work.set_sockets Work.set_counters Work.set_stopCh
         get_sockets Work.sockets closed].
    rewrite Hzero. cbn [Z.to_nat for_loop repeat]. go_unfold.
    destruct (Work.verbose (w s)); cbn [fst snd andb]; rewrite ?app_nil_r;
      split; reflexivity.
  - rewrite Stop_parks.
    + cbn [fst snd w put_sockets put_counters put_stopCh on_w set_w
           Work.verbose Work.set_sockets Work.set_counters Work.set_stopCh].
      split; reflexivity.
    + cbn. lia.
    + right. eexists. split; [reflexivity|]. split; [reflexivity|].
      cbn [cap buf w put_sockets put_counters put_stopCh on_w set_w Work.C
           Work.set_sockets Work.set_counters Work.set_stopCh].
      unfold len. rewrite repeat_length. lia.
Qed.

Lemma Stop_twice_witness :
  (0 <= Work.C (w two_queued) /\
   get_stopCh two_queued
     = Some {| buf := []; cap := Work.C (w two_queued); closed := false |} /\
   get_sockets two_queued
     = Some {| buf := [ws_example 1; ws_example 2]; cap := 2; closed := false |} /\
   get_counters two_queued = Some {| buf := []; cap := 2; closed := false |}) /\
  outcome ((Stop ;; Stop) two_queued []) = Blocked.
Proof.
  assert (H1 : 0 <= Work.C (w two_queued)) by (simpl; lia).
  assert (H2 : get_stopCh two_queued
               = Some {| buf := []; cap := Work.C (w two_queued);
                         closed := false |}) by reflexivity.
  assert (H3 : get_sockets two_queued
               = Some {| buf := [ws_example 1; ws_example 2]; cap := 2;
                         closed := false |}) by reflexivity.
  assert (H4 : get_counters two_queued
               = Some {| buf := []; cap := 2; closed := false |}) by reflexivity.
  split; [repeat split; assumption|].
  exact (proj1 (Stop_twice two_queued [] _ _ 2 2 H1 H2 H3 H4)).
Defined.

(** X7.  [Stop] before [Start] has allocated the channels parks for ever
    on its first send (the stop channel is nil), for every [C >= 1]:
    nothing is closed and no stop notification is ever delivered. *)
Theorem Stop_before_Start_parks (s : World) (t : list Event) :
  1 <= Work.C (w s) ->
  get_stopCh s = None ->
  Stop s t =
    (Blocked, s, t ++ if Work.verbose (w s) then [EStdout MStopping] else []).
Proof. intros HC Hnil. apply Stop_parks; [exact HC | now left]. Qed.

Lemma Stop_before_Start_parks_witness :
  (1 <= Work.C (w (init_World (work_of 2 2 "wss://example.com/" ""))) /\
   get_stopCh (init_World (work_of 2 2 "wss://example.com/" "")) = None) /\
  Stop (init_World (work_of 2 2 "wss://example.com/" "")) []
    = (Blocked, init_World (work_of 2 2 "wss://example.com/" ""), []).
Proof.
  assert (H1 : 1 <= Work.C (w (init_World (work_of 2 2 "wss://example.com/" ""))))
    by (simpl; lia).
  assert (H2 : get_stopCh (init_World (work_of 2 2 "wss://example.com/" ""))
               = None) by reflexivity.
  split; [split; assumption|].
  apply (Stop_before_Start_parks _ [] H1 H2).
Defined.

Lemma report_total_sum (hp : list counter.t) (cs : list nat) :
  forall total : Z,
    int total = total ->
    Forall (fun c => is_Some (hp !! c)) cs ->
    report_total hp cs total = int (total + counters_sum hp cs).
Proof.
  induction cs as [|c rest IH]; intros total Htotal Hvalid.
  - simpl. rewrite Z.add_0_r. now symmetry.
  - apply Forall_cons_1 in Hvalid as [[cnt Hc] Hvalid].
    simpl. rewrite Hc. rewrite IH by (apply int_idem || exact Hvalid).
    rewrite int_add_l. f_equal. lia.
Qed.

(** X8.  Once the counter queue is closed, [PrintReport] returns after
    draining it and printing one line: the sum of the totals of the
    queued counters, wrapped to [int], and the configured connection
    count [C] (not the number of counters). *)
Theorem PrintReport_prints_sum (s : World) (t : list Event) (cs : list nat)
    (cp : Z) :
  get_counters s = Some {| buf := cs; cap := cp; closed := true |} ->
  Forall (fun c => is_Some (heap s !! c)) cs ->
  PrintReport s t =
    (Ret tt,
     put_counters (Some {| buf := []; cap := cp; closed := true |}) s,
     t ++ [EStdout (MReport (int (counters_sum (heap s) cs)) (Work.C (w s)))]).
Proof.
  intros Hq Hvalid. rewrite (PrintReport_closed s t cs cp Hq Hvalid).
  rewrite report_total_sum by (reflexivity || exact Hvalid).
  reflexivity.
Qed.

Lemma PrintReport_prints_sum_witness :
  let s := set_heap [counter.mk 5; counter.mk 7; counter.mk 11]
             (put_counters (Some {| buf := [0%nat; 2%nat]; cap := 2;
                                    closed := true |})
                (run_state (work_of 2 2 "wss://example.com/" "") 2)) in
  (get_counters s = Some {| buf := [0%nat; 2%nat]; cap := 2; closed := true |} /\
   Forall (fun c => is_Some (heap s !! c)) [0%nat; 2%nat]) /\
  events (PrintReport s []) = [EStdout (MReport 16 2)].
Proof.
  intros s.
  assert (H1 : get_counters s
               = Some {| buf := [0%nat; 2%nat]; cap := 2; closed := true |})
    by reflexivity.
  assert (H2 : Forall (fun c => is_Some (heap s !! c)) [0%nat; 2%nat])
    by (repeat constructor; eexists; reflexivity).
  split; [exact (conj H1 H2)|].
  rewrite (PrintReport_prints_sum s [] _ 2 H1 H2). reflexivity.
Defined.

(** The [range] loop of [PrintReport] on an open queue. *)
Lemma PrintReport_range_open (cs : list nat) :
  forall (fuel : nat) (s : World) (t : list Event) (cp total : Z),
    get_counters s = Some {| buf := cs; cap := cp; closed := false |} ->
    Forall (fun c => is_Some (heap s !! c)) cs ->
    PrintReport_range fuel total s t =
      (Blocked,
       put_counters (Some {| buf := drop fuel cs; cap := cp; closed := false |}) s,
       t).
Proof.
  induction cs as [|c rest IH]; intros fuel s t cp total Hq Hheap.
  - assert (put_counters (Some {| buf := []; cap := cp; closed := false |}) s = s)
      as Hsame.
    { unfold get_counters in Hq. destruct s as [[] ? ?]. cbn in *. now rewrite Hq. }
    rewrite drop_nil.
    destruct fuel as [|fuel]; cbn [PrintReport_range].
    + unfold block. now rewrite Hsame.
    + unfold recv_range. go_unfold. rewrite Hq. cbn. now rewrite Hsame.
  - destruct fuel as [|fuel]; cbn [PrintReport_range drop].
    + unfold block. f_equal. f_equal.
      unfold get_counters in Hq. destruct s as [[] ? ?]. cbn in *. now rewrite Hq.
    + apply Forall_cons_1 in Hheap as [[cnt Hc] Hheap].
      unfold recv_range. go_unfold. rewrite Hq. cbn [buf].
      go_step. cbn [heap put_counters on_w set_w]. rewrite Hc.
      rewrite (IH fuel _ _ cp); [reflexivity | reflexivity | exact Hheap].
Qed.

(** X9.  While the counter queue is open, [PrintReport] never prints: it
    takes the counters queued so far and then parks waiting for the queue
    to be closed. *)
Theorem PrintReport_open_parks (s : World) (t : list Event) (cs : list nat)
    (cp : Z) :
  get_counters s = Some {| buf := cs; cap := cp; closed := false |} ->
  Forall (fun c => is_Some (heap s !! c)) cs ->
  PrintReport s t =
    (Blocked,
     put_counters (Some {| buf := []; cap := cp; closed := false |}) s, t).
Proof.
  intros Hq Hvalid. unfold PrintReport. go_unfold.
  rewrite (PrintReport_range_open cs _ s t cp 0 Hq Hvalid).
  unfold queued. rewrite Hq. cbn [buf].
  rewrite drop_ge by (simpl; lia). reflexivity.
Qed.

Lemma PrintReport_open_parks_witness :
  let s := set_heap [counter.mk 5; counter.mk 7]
             (put_counters (Some {| buf := [0%nat; 1%nat]; cap := 2;
                                    closed := false |})
                (run_state (work_of 2 2 "wss://example.com/" "") 2)) in
  (get_counters s = Some {| buf := [0%nat; 1%nat]; cap := 2; closed := false |} /\
   Forall (fun c => is_Some (heap s !! c)) [0%nat; 1%nat]) /\
  outcome (PrintReport s []) = Blocked /\
  events (PrintReport s []) = [].
Proof.
  intros s.
  assert (H1 : get_counters s
               = Some {| buf := [0%nat; 1%nat]; cap := 2; closed := false |})
    by reflexivity.
  assert (H2 : Forall (fun c => is_Some (heap s !! c)) [0%nat; 1%nat])
    by (repeat constructor; eexists; reflexivity).
  split; [exact (conj H1 H2)|].
  rewrite (PrintReport_open_parks s [] _ 2 H1 H2). split; reflexivity.
Defined.

(** ** The worker *)

Lemma set_heap_same (s : World) : set_heap (heap s) s = s.
Proof. now destruct s. Qed.

(** [io.Copy] into the counter [c] adds the bytes of the chunks to it and
    returns their number. *)
Lemma io_Copy_counts (vv : bool) (c : nat) (chunks : list (list Byte.byte)) :
  forall (s : World) (t : list Event) (N0 : Z),
    heap s !! c = Some (counter.mk N0) ->
    int N0 = N0 ->
    io_Copy vv c chunks s t =
      (Ret (total_len chunks),
       set_heap (<[c := counter.mk (int (N0 + total_len chunks))]> (heap s)) s,
       t ++ if vv then map EStdoutRaw chunks else []).
Proof.
  induction chunks as [|p rest IH]; intros s t N0 Hc HN0.
  - simpl. unfold ret. rewrite Z.add_0_r, HN0, list_insert_id by exact Hc.
    rewrite set_heap_same. destruct vv; now rewrite app_nil_r.
  - assert (Hlt : (c < length (heap s))%nat) by (eapply lookup_lt_Some; eauto).
    cbn [io_Copy]. unfold counter_Write.
    destruct vv; go_unfold; rewrite Hc; cbn [counter.Write counter.N]; go_step;
      (erewrite IH;
       [ | cbn [heap set_heap]; apply list_lookup_insert_eq; exact Hlt
         | apply int_idem ]);
      cbn [heap set_heap map];
      rewrite list_insert_insert_eq, int_add_l, <- ?app_assoc;
      change (total_len (p :: rest)) with (len p + total_len rest);
      rewrite Z.add_assoc; reflexivity.
Qed.

Lemma no_stop_try_recv (s : World) (t : list Event) :
  no_stop_pending (get_stopCh s) ->
  try_recv get_stopCh put_stopCh s t = (Ret false, s, t).
Proof.
  unfold no_stop_pending, try_recv. go_unfold.
  destruct (get_stopCh s) as [ch|]; [|reflexivity].
  intros [-> ->]. reflexivity.
Qed.

(** The receive loop on a connection whose inbound stream ends by itself,
    with no stop notification pending. *)
Lemma receive_ends (inbound : list ReadResult) :
  forall (i : Z) (c : nat) (s : World) (t : list Event) (N0 : Z),
    ends inbound = true ->
    no_stop_pending (get_stopCh s) ->
    heap s !! c = Some (counter.mk N0) ->
    int N0 = N0 ->
    exists ev,
      receive i c inbound s t =
        (Ret tt,
         set_heap (<[c := counter.mk (int (N0 + counted inbound))]> (heap s)) s,
         t ++ ev) /\
      forallb is_reading ev = true.
Proof.
  induction inbound as [|r rest IH]; intros i c s t N0 Hends Hstop Hc HN0;
    [discriminate|].
  assert (Hid : set_heap (<[c := counter.mk (int (N0 + 0))]> (heap s)) s = s).
  { rewrite Z.add_0_r, HN0, list_insert_id by exact Hc. apply set_heap_same. }
  destruct r as [ty err | ty chunks copy_err]; cbn [receive counted ends] in *.
  - go_unfold. rewrite Hid.
    destruct (Work.verbose (w s)).
    + eexists. split; reflexivity.
    + exists []. rewrite app_nil_r. now split.
  - destruct (ty =? CloseMessage).
    + exists []. rewrite Hid, app_nil_r. now split.
    + unfold bind at 1, get. unfold bind at 1.
      rewrite (io_Copy_counts _ c chunks s t N0 Hc HN0).
      assert (Hraw : forallb is_reading
                       (if Work.vv (w s) then map EStdoutRaw chunks else []) = true).
      { destruct (Work.vv (w s)); [|reflexivity].
        clear. induction chunks; simpl; auto. }
      destruct copy_err as [err|].
      * rewrite Z.add_0_r. unfold emit. eexists.
        rewrite <- app_assoc. split; [reflexivity|].
        rewrite forallb_app, Hraw. reflexivity.
      * cbn [orb] in Hends.
        assert (Hlt : (c < length (heap s))%nat) by (eapply lookup_lt_Some; eauto).
        destruct (IH i c
                    (set_heap (<[c := counter.mk (int (N0 + total_len chunks))]>
                                 (heap s)) s)
                    ((t ++ if Work.vv (w s) then map EStdoutRaw chunks else [])
                       ++ if Work.verbose (w s)
                          then [ELog (MRead (total_len chunks) i ty)] else [])
                    (int (N0 + total_len chunks)) Hends Hstop)
          as (ev & Hrun & Hev).
        { cbn [heap set_heap]. now apply list_lookup_insert_eq. }
        { apply int_idem. }
        unfold bind at 1.
        assert (Hlog : when (Work.verbose (w s))
                         (emit (ELog (MRead (total_len chunks) i ty)))
                         (set_heap (<[c := counter.mk (int (N0 + total_len chunks))]>
                                      (heap s)) s)
                         (t ++ if Work.vv (w s) then map EStdoutRaw chunks else [])
                       = (Ret tt,
                          set_heap (<[c := counter.mk (int (N0 + total_len chunks))]>
                                      (heap s)) s,
                          (t ++ if Work.vv (w s) then map EStdoutRaw chunks else [])
                            ++ if Work.verbose (w s)
                               then [ELog (MRead (total_len chunks) i ty)] else [])).
        { destruct (Work.verbose (w s)); cbn; now rewrite ?app_nil_r. }
        rewrite Hlog. unfold bind at 1.
        rewrite no_stop_try_recv by exact Hstop.
        rewrite Hrun. cbn [heap set_heap].
        rewrite list_insert_insert_eq, int_add_l, Z.add_assoc.
        eexists. rewrite <- !app_assoc. split; [reflexivity|].
        rewrite !forallb_app, Hraw, Hev.
        now destruct (Work.verbose (w s)).
Qed.

(** X10.  The receive loop on a connection whose inbound stream ends by
    itself (read error, close message, or a failed copy), with no stop
    notification pending: the worker returns, its counter has grown by
    exactly the bytes of the data messages read ([counted]), and nothing
    else of the shared state has changed; all it wrote is raw echo and
    log lines. *)
Theorem receive_counts (inbound : list ReadResult) (i : Z) (c : nat)
    (s : World) (t : list Event) (N0 : Z) :
  ends inbound = true ->
  no_stop_pending (get_stopCh s) ->
  heap s !! c = Some (counter.mk N0) ->
  int N0 = N0 ->
  exists ev,
    receive i c inbound s t =
      (Ret tt,
       set_heap (<[c := counter.mk (int (N0 + counted inbound))]> (heap s)) s,
       t ++ ev) /\
    forallb is_reading ev = true.
Proof. apply receive_ends. Qed.

Lemma receive_counts_witness :
  let inbound := [ReadMsg BinaryMessage [[Byte.x68]; [Byte.x69; Byte.x21]] None;
                  ReadMsg BinaryMessage [[Byte.x68; Byte.x69]] None;
                  ReadMsg CloseMessage [[Byte.x00; Byte.x00]] None;
                  ReadMsg BinaryMessage [[Byte.x68; Byte.x69]] None] in
  let s := set_heap [counter.mk 7; counter.mk 40]
             (run_state (work_of 2 2 "wss://example.com/" "") 2) in
  (ends inbound = true /\
   no_stop_pending (get_stopCh s) /\
   heap s !! 1%nat = Some (counter.mk 40) /\
   int 40 = 40) /\
  outcome (receive 1 1 inbound s []) = Ret tt /\
  heap (final (receive 1 1 inbound s [])) = [counter.mk 7; counter.mk 45].
Proof.
  intros inbound s.
  assert (H1 : ends inbound = true) by reflexivity.
  assert (H2 : no_stop_pending (get_stopCh s)) by (split; reflexivity).
  assert (H3 : heap s !! 1%nat = Some (counter.mk 40)) by reflexivity.
  assert (H4 : int 40 = 40) by reflexivity.
  split; [exact (conj H1 (conj H2 (conj H3 H4)))|].
  destruct (receive_counts inbound 1 1 s [] 40 H1 H2 H3 H4) as (ev & Hrun & _).
  rewrite Hrun. split; reflexivity.
Defined.

(** X11.  Cancellation is cooperative and is looked at only after a
    message: with a stop notification pending, a worker on a silent
    connection parks in [NextReader] without taking the notification,
    while a worker that is delivered a data message counts that message
    in full, takes one notification and returns, leaving what the
    connection would deliver next unread. *)
Theorem receive_stop_after_message (i : Z) (c : nat) (s : World)
    (t : list Event) (N0 ty : Z) (chunks : list (list Byte.byte))
    (more : list ReadResult) (ch : chan unit) (pending : list unit) :
  ty <> CloseMessage ->
  heap s !! c = Some (counter.mk N0) ->
  int N0 = N0 ->
  get_stopCh s = Some ch ->
  buf ch = tt :: pending ->
  receive i c [] s t = (Blocked, s, t) /\
  exists ev,
    receive i c (ReadMsg ty chunks None :: more) s t =
      (Ret tt,
       put_stopCh (Some (set_buf pending ch))
         (set_heap (<[c := counter.mk (int (N0 + total_len chunks))]> (heap s)) s),
       t ++ ev) /\
    forallb is_reading ev = true.
Proof.
  intros Hty Hc HN0 Hch Hbuf. split; [reflexivity|].
  cbn [receive]. rewrite (proj2 (Z.eqb_neq _ _) Hty).
  unfold bind at 1, get. unfold bind at 1.
  rewrite (io_Copy_counts _ c chunks s t N0 Hc HN0).
  assert (Htry : forall tr,
            try_recv get_stopCh put_stopCh
              (set_heap (<[c := counter.mk (int (N0 + total_len chunks))]> (heap s)) s)
              tr
            = (Ret true,
               put_stopCh (Some (set_buf pending ch))
                 (set_heap (<[c := counter.mk (int (N0 + total_len chunks))]>
                              (heap s)) s),
               tr)).
  { intros tr. unfold try_recv. go_unfold.
    change (get_stopCh (set_heap (<[c := counter.mk (int (N0 + total_len chunks))]>
                                    (heap s)) s)) with (get_stopCh s).
    rewrite Hch, Hbuf. reflexivity. }
  assert (Hraw : forallb is_reading
                   (if Work.vv (w s) then map EStdoutRaw chunks else []) = true).
  { destruct (Work.vv (w s)); [|reflexivity]. clear. induction chunks; simpl; auto. }
  unfold bind at 1.
  destruct (Work.verbose (w s)); cbn [when]; unfold emit, ret; unfold bind at 1;
    rewrite Htry; eexists; rewrite <- ?app_assoc;
    (split; [reflexivity|]); rewrite ?forallb_app, Hraw; reflexivity.
Qed.

Lemma receive_stop_after_message_witness :
  let s := put_stopCh (Some {| buf := [tt]; cap := 1; closed := false |})
             (set_heap [counter.mk 0]
                (run_state (work_of 1 1 "wss://example.com/" "") 1)) in
  (BinaryMessage <> CloseMessage /\
   heap s !! 0%nat = Some (counter.mk 0) /\
   int 0 = 0 /\
   get_stopCh s = Some {| buf := [tt]; cap := 1; closed := false |} /\
   buf {| buf := [tt]; cap := 1; closed := false |} = [tt]) /\
  outcome (receive 0 0 [ReadMsg BinaryMessage [[Byte.x68; Byte.x69]] None;
                        ReadMsg BinaryMessage [[Byte.x68; Byte.x69]] None] s [])
    = Ret tt /\
  heap (final (receive 0 0 [ReadMsg BinaryMessage [[Byte.x68; Byte.x69]] None;
                            ReadMsg BinaryMessage [[Byte.x68; Byte.x69]] None] s []))
    = [counter.mk 2].
Proof.
  intros s.
  assert (H1 : BinaryMessage <> CloseMessage) by discriminate.
  assert (H2 : heap s !! 0%nat = Some (counter.mk 0)) by reflexivity.
  assert (H3 : int 0 = 0) by reflexivity.
  assert (H4 : get_stopCh s = Some {| buf := [tt]; cap := 1; closed := false |})
    by reflexivity.
  assert (H5 : buf {| buf := [tt]; cap := 1; closed := false |} = [tt])
    by reflexivity.
  split; [repeat split; assumption|].
  destruct (proj2 (receive_stop_after_message 0 0 s [] 0 BinaryMessage
                     [[Byte.x68; Byte.x69]]
                     [ReadMsg BinaryMessage [[Byte.x68; Byte.x69]] None]
                     _ [] H1 H2 H3 H4 H5)) as (ev & Hrun & _).
  rewrite Hrun. split; reflexivity.
Defined.

Lemma reading_projections (ev : list Event) :
  forallb is_reading ev = true ->
  filter is_publish ev = [] /\ sent_sockets ev = [] /\
  launches ev = [] /\ schedule ev = [] /\ reports ev = [].
Proof.
  induction ev as [|e ev IH]; [now repeat split|].
  destruct e; simpl; try discriminate; exact IH.
Qed.

Lemma reports_app (t1 t2 : list Event) :
  reports (t1 ++ t2) = reports t1 ++ reports t2.
Proof.
  induction t1 as [|e t1 IH]; [reflexivity|].
  destruct e as [[]| | | | | | | | | | | | | |]; simpl; rewrite ?IH; reflexivity.
Qed.

Lemma filter_is_publish_app (t1 t2 : list Event) :
  filter is_publish (t1 ++ t2) = filter is_publish t1 ++ filter is_publish t2.
Proof. apply filter_app. Qed.

Lemma sent_sockets_app (t1 t2 : list Event) :
  sent_sockets (t1 ++ t2) = sent_sockets t1 ++ sent_sockets t2.
Proof.
  induction t1 as [|e t1 IH]; [reflexivity|].
  destruct e; simpl; rewrite ?IH; reflexivity.
Qed.

Section WorkerExtras.
Context {env : Env}.

(** A worker whose dial succeeds, with no payload configured, room on
    both queues, no stop notification pending and an inbound stream that
    ends by itself. *)
Lemma runWorker_reads (i : Z) (s s1 : World) (t t1 : list Event)
    (ws : websocket_Conn) (ss : list websocket_Conn) (cs : list nat)
    (c1 c2 : Z) :
  Dialer_Dial (Work.URL (w s)) (Work.header (w s)) s t
    = (Ret (Dialed ws), s1, t1) ->
  Work.SendData (w s) = "" ->
  get_sockets s1 = Some {| buf := ss; cap := c1; closed := false |} ->
  len ss < c1 ->
  get_counters s1 = Some {| buf := cs; cap := c2; closed := false |} ->
  len cs < c2 ->
  no_stop_pending (get_stopCh s1) ->
  ends (ws_inbound ws) = true ->
  exists ev,
    runWorker i s t =
      (Ret tt,
       set_heap (heap s1 ++ [counter.mk (int (counted (ws_inbound ws)))])
         (put_counters (Some {| buf := cs ++ [length (heap s1)]; cap := c2;
                                closed := false |})
            (put_sockets (Some {| buf := ss ++ [ws]; cap := c1; closed := false |})
               s1)),
       t1 ++ ev) /\
    filter is_publish ev = [ESendSocket ws; ESendCounter (length (heap s1))] /\
    sent_sockets ev = [ws] /\ launches ev = [] /\ schedule ev = [] /\
    reports ev = [].
Proof.
  intros Hdial Hdata Hsock Hroom1 Hcnt Hroom2 Hstop Hends.
  set (s2 := put_counters (Some {| buf := cs ++ [length (heap s1)]; cap := c2;
                                   closed := false |})
               (set_heap (heap s1 ++ [counter.mk 0])
                  (put_sockets (Some {| buf := ss ++ [ws]; cap := c1;
                                        closed := false |}) s1))).
  assert (Hrecv : forall t2, exists ev,
            receive i (length (heap s1)) (ws_inbound ws) s2 t2 =
              (Ret tt,
               set_heap (heap s1 ++ [counter.mk (int (counted (ws_inbound ws)))])
                 (put_counters (Some {| buf := cs ++ [length (heap s1)]; cap := c2;
                                        closed := false |})
                    (put_sockets (Some {| buf := ss ++ [ws]; cap := c1;
                                          closed := false |}) s1)),
               t2 ++ ev) /\
            forallb is_reading ev = true).
  { intros t2.
    destruct (receive_ends (ws_inbound ws) i (length (heap s1)) s2 t2 0 Hends)
      as (ev & Hrun & Hev).
    - exact Hstop.
    - unfold s2. cbn [heap put_counters on_w set_w set_heap].
      apply list_lookup_middle. reflexivity.
    - reflexivity.
    - exists ev. split; [|exact Hev]. rewrite Hrun. f_equal. f_equal.
      unfold s2. cbn [heap put_counters put_sockets on_w set_w set_heap w wg].
      rewrite Z.add_0_l.
      replace (<[length (heap s1) := counter.mk (int (counted (ws_inbound ws)))]>
                 (heap s1 ++ [counter.mk 0]))
        with (heap s1 ++ [counter.mk (int (counted (ws_inbound ws)))]);
        [reflexivity|].
      rewrite insert_app_r_alt by lia. now rewrite Nat.sub_diag. }
  unfold runWorker. go_unfold. rewrite Hdial. go_step.
  unfold send, new_counter. go_unfold. rewrite Hdata. cbn [String.eqb negb].
  destruct (Work.verbose (w s)); go_step;
    rewrite Hsock; cbn [closed buf cap];
    rewrite (proj2 (Z.ltb_lt _ _) Hroom1); go_step;
    cbn [get_counters put_sockets on_w set_w w Work.counters Work.set_sockets
         heap set_heap];
    unfold get_counters in Hcnt; rewrite Hcnt; cbn [closed buf cap];
    rewrite (proj2 (Z.ltb_lt _ _) Hroom2); go_step;
    unfold set_buf; cbn [buf cap closed];
    match goal with
    | |- context [receive i _ _ ?st ?tr] =>
        change st with s2; destruct (Hrecv tr) as (ev & -> & Hev)
    end;
    destruct (reading_projections ev Hev) as (Hp & Hs & Hl & Hc & Hr);
    eexists; rewrite <- !app_assoc; (split; [reflexivity|]);
    rewrite ?filter_is_publish_app, ?sent_sockets_app, ?launches_app,
      ?schedule_app, ?reports_app;
    cbn [app filter is_publish sent_sockets launches schedule reports];
    rewrite ?filter_is_publish_app, ?sent_sockets_app, ?launches_app,
      ?schedule_app, ?reports_app, Hp, Hs, Hl, Hc, Hr; repeat split.
Qed.

(** [Dialer.Dial] leaves the queues, the stop channel and the counters as
    they are. *)
Lemma Dialer_Dial_keeps (u : string) (hd : list (string * string))
    (s s1 : World) (t t1 : list Event) (r : Outcome DialResult) :
  Dialer_Dial u hd s t = (r, s1, t1) ->
  get_sockets s1 = get_sockets s /\ get_counters s1 = get_counters s /\
  get_stopCh s1 = get_stopCh s /\ heap s1 = heap s.
Proof.
  intros Hdial. destruct (Dialer_Dial_frame u hd s t) as [ao' Hframe].
  rewrite Hdial in Hframe. unfold final in Hframe. cbn [fst snd] in Hframe.
  subst s1. destruct s as [[] ? ?]. repeat split.
Qed.

(** X12.  A worker whose dial succeeds, with no payload configured, room
    on both queues, no stop notification pending and a peer whose stream
    ends by itself: it returns; it has published the connection and then
    a counter of its own, in this order and nothing else; the counter is
    a fresh one, appended to the counters that exist, and holds the bytes
    read on the connection; and nothing else has changed since the
    dial. *)
Theorem runWorker_publishes_and_counts (i : Z) (s s1 : World)
    (t t1 : list Event) (ws : websocket_Conn) (ss : list websocket_Conn)
    (cs : list nat) (c1 c2 : Z) :
  Dialer_Dial (Work.URL (w s)) (Work.header (w s)) s t
    = (Ret (Dialed ws), s1, t1) ->
  Work.SendData (w s) = "" ->
  get_sockets s = Some {| buf := ss; cap := c1; closed := false |} ->
  len ss < c1 ->
  get_counters s = Some {| buf := cs; cap := c2; closed := false |} ->
  len cs < c2 ->
  no_stop_pending (get_stopCh s) ->
  ends (ws_inbound ws) = true ->
  exists ev,
    runWorker i s t =
      (Ret tt,
       set_heap (heap s ++ [counter.mk (int (counted (ws_inbound ws)))])
         (put_counters (Some {| buf := cs ++ [length (heap s)]; cap := c2;
                                closed := false |})
            (put_sockets (Some {| buf := ss ++ [ws]; cap := c1; closed := false |})
               s1)),
       t1 ++ ev) /\
    filter is_publish ev = [ESendSocket ws; ESendCounter (length (heap s))].
Proof.
  intros Hdial Hdata Hsock Hroom1 Hcnt Hroom2 Hstop Hends.
  destruct (Dialer_Dial_keeps _ _ _ _ _ _ _ Hdial) as (E1 & E2 & E3 & E4).
  rewrite <- E1 in Hsock. rewrite <- E2 in Hcnt. rewrite <- E3 in Hstop.
  destruct (runWorker_reads i s s1 t t1 ws ss cs c1 c2
              Hdial Hdata Hsock Hroom1 Hcnt Hroom2 Hstop Hends)
    as (ev & Hrun & Hpub & _).
  exists ev. rewrite <- E4. split; assumption.
Qed.

(** X13.  A worker whose dial completes once [Stop] has closed the
    connection queue panics on publishing its connection: it has sent
    nothing and counted nothing. *)
Theorem runWorker_after_Stop_panics (i : Z) (s s1 : World)
    (t t1 : list Event) (ws : websocket_Conn) (ch : chan websocket_Conn) :
  Dialer_Dial (Work.URL (w s)) (Work.header (w s)) s t
    = (Ret (Dialed ws), s1, t1) ->
  get_sockets s = Some ch ->
  closed ch = true ->
  runWorker i s t =
    (Panic SendOnClosedChannel, s1,
     t1 ++ if Work.verbose (w s) then [ELog (MConnected i)] else []).
Proof.
  intros Hdial Hsock Hclosed.
  destruct (Dialer_Dial_keeps _ _ _ _ _ _ _ Hdial) as (E1 & _).
  rewrite <- E1 in Hsock.
  unfold runWorker. go_unfold. rewrite Hdial. go_step.
  unfold send. go_unfold.
  destruct (Work.verbose (w s)); go_step; rewrite Hsock, Hclosed;
    rewrite ?app_nil_r; reflexivity.
Qed.

(** X14.  With a payload configured, a worker whose [NextWriter] fails
    logs the error and goes on to write the payload to the nil writer: it
    panics, after having published its connection and before creating its
    counter. *)
Theorem runWorker_nil_writer_panics (i : Z) (s s1 : World)
    (t t1 : list Event) (ws : websocket_Conn) (ss : list websocket_Conn)
    (c1 : Z) (e : error) :
  Dialer_Dial (Work.URL (w s)) (Work.header (w s)) s t
    = (Ret (Dialed ws), s1, t1) ->
  Work.SendData (w s) <> "" ->
  get_sockets s = Some {| buf := ss; cap := c1; closed := false |} ->
  len ss < c1 ->
  ws_NextWriter ws = Some e ->
  runWorker i s t =
    (Panic NilDereference,
     put_sockets (Some {| buf := ss ++ [ws]; cap := c1; closed := false |}) s1,
     t1 ++ (if Work.verbose (w s) then [ELog (MConnected i)] else [])
        ++ [ESendSocket ws; ENextWriter ws BinaryMessage;
            ELog (MErrorWriting e)]).
Proof.
  intros Hdial Hdata Hsock Hroom Hwriter.
  destruct (Dialer_Dial_keeps _ _ _ _ _ _ _ Hdial) as (E1 & _).
  rewrite <- E1 in Hsock.
  unfold runWorker. go_unfold. rewrite Hdial. go_step.
  unfold send, io_WriteString. go_unfold.
  rewrite (proj2 (String.eqb_neq _ _) Hdata), Hwriter. cbn [negb].
  destruct (Work.verbose (w s)); go_step;
    rewrite Hsock; cbn [closed buf cap];
    rewrite (proj2 (Z.ltb_lt _ _) Hroom); go_step;
    unfold set_buf; cbn [buf cap closed];
    rewrite <- ?app_assoc; reflexivity.
Qed.

End WorkerExtras.

Lemma runWorker_publishes_and_counts_witness :
  let s := run_state (work_of 1 1 "wss://example.com/" "") 0 in
  (Dialer_Dial (env := env_accept) (Work.URL (w s)) (Work.header (w s)) s []
     = (Ret (Dialed (ws_example 1)), s, [ENetDial "tcp" "example.com:443"]) /\
   Work.SendData (w s) = "" /\
   get_sockets s = Some {| buf := []; cap := 1; closed := false |} /\
   len (@nil websocket_Conn) < 1 /\
   get_counters s = Some {| buf := []; cap := 1; closed := false |} /\
   len (@nil nat) < 1 /\
   no_stop_pending (get_stopCh s) /\
   ends (ws_inbound (ws_example 1)) = true) /\
  outcome (runWorker (env := env_accept) 0 s []) = Ret tt /\
  heap (final (runWorker (env := env_accept) 0 s [])) = [counter.mk 2] /\
  filter is_publish (events (runWorker (env := env_accept) 0 s []))
    = [ESendSocket (ws_example 1); ESendCounter 0].
Proof.
  intros s.
  assert (H1 : Dialer_Dial (env := env_accept) (Work.URL (w s))
                 (Work.header (w s)) s []
               = (Ret (Dialed (ws_example 1)), s,
                  [ENetDial "tcp" "example.com:443"])) by reflexivity.
  assert (H2 : Work.SendData (w s) = "") by reflexivity.
  assert (H3 : get_sockets s = Some {| buf := []; cap := 1; closed := false |})
    by reflexivity.
  assert (H4 : len (@nil websocket_Conn) < 1) by reflexivity.
  assert (H5 : get_counters s = Some {| buf := []; cap := 1; closed := false |})
    by reflexivity.
  assert (H6 : len (@nil nat) < 1) by reflexivity.
  assert (H7 : no_stop_pending (get_stopCh s)) by (split; reflexivity).
  assert (H8 : ends (ws_inbound (ws_example 1)) = true) by reflexivity.
  split; [exact (conj H1 (conj H2 (conj H3 (conj H4 (conj H5 (conj H6
                   (conj H7 H8)))))))|].
  destruct (runWorker_publishes_and_counts (env := env_accept) 0 s s [] _
              (ws_example 1) [] [] 1 1 H1 H2 H3 H4 H5 H6 H7 H8)
    as (ev & Hrun & Hpub).
  rewrite Hrun. unfold outcome, final, events. cbn [fst snd].
  repeat split. rewrite filter_app, Hpub. reflexivity.
Defined.

Lemma runWorker_after_Stop_panics_witness :
  let s := put_sockets (Some {| buf := []; cap := 1; closed := true |})
             (run_state (work_of 1 1 "wss://example.com/" "") 0) in
  (Dialer_Dial (env := env_accept) (Work.URL (w s)) (Work.header (w s)) s []
     = (Ret (Dialed (ws_example 1)), s, [ENetDial "tcp" "example.com:443"]) /\
   get_sockets s = Some {| buf := []; cap := 1; closed := true |} /\
   closed {| buf := @nil websocket_Conn; cap := 1; closed := true |} = true) /\
  runWorker (env := env_accept) 0 s []
    = (Panic SendOnClosedChannel, s, [ENetDial "tcp" "example.com:443"]).
Proof.
  intros s.
  assert (H1 : Dialer_Dial (env := env_accept) (Work.URL (w s))
                 (Work.header (w s)) s []
               = (Ret (Dialed (ws_example 1)), s,
                  [ENetDial "tcp" "example.com:443"])) by reflexivity.
  assert (H2 : get_sockets s = Some {| buf := []; cap := 1; closed := true |})
    by reflexivity.
  assert (H3 : closed {| buf := @nil websocket_Conn; cap := 1; closed := true |}
               = true) by reflexivity.
  split; [exact (conj H1 (conj H2 H3))|].
  rewrite (runWorker_after_Stop_panics (env := env_accept) 0 s s [] _
             (ws_example 1) _ H1 H2 H3).
  reflexivity.
Defined.

Lemma runWorker_nil_writer_panics_witness :
  let s := run_state
             (Work.mk 0 1 1 20 "wss://example.com/" "" "hello" false false false
                      None None None None [] None) 0 in
  let ws := {| ws_id := 1; ws_NextWriter := Some "write: broken pipe";
               ws_inbound := [ReadErr 0 "unexpected EOF"];
               ws_WriteClose := None |} in
  (Dialer_Dial (env := env_no_writer) (Work.URL (w s)) (Work.header (w s)) s []
     = (Ret (Dialed ws), s, [ENetDial "tcp" "example.com:443"]) /\
   Work.SendData (w s) <> "" /\
   get_sockets s = Some {| buf := []; cap := 1; closed := false |} /\
   len (@nil websocket_Conn) < 1 /\
   ws_NextWriter ws = Some "write: broken pipe") /\
  outcome (runWorker (env := env_no_writer) 0 s []) = Panic NilDereference /\
  events (runWorker (env := env_no_writer) 0 s [])
    = [ENetDial "tcp" "example.com:443"; ESendSocket ws;
       ENextWriter ws BinaryMessage; ELog (MErrorWriting "write: broken pipe")].
Proof.
  intros s ws.
  assert (H1 : Dialer_Dial (env := env_no_writer) (Work.URL (w s))
                 (Work.header (w s)) s []
               = (Ret (Dialed ws), s, [ENetDial "tcp" "example.com:443"]))
    by reflexivity.
  assert (H2 : Work.SendData (w s) <> "") by discriminate.
  assert (H3 : get_sockets s = Some {| buf := []; cap := 1; closed := false |})
    by reflexivity.
  assert (H4 : len (@nil websocket_Conn) < 1) by reflexivity.
  assert (H5 : ws_NextWriter ws = Some "write: broken pipe") by reflexivity.
  split; [exact (conj H1 (conj H2 (conj H3 (conj H4 H5))))|].
  rewrite (runWorker_nil_writer_panics (env := env_no_writer) 0 s s [] _
             ws [] 1 _ H1 H2 H3 H4 H5).
  split; reflexivity.
Defined.

(** ** A run whose connections are all accepted *)

Lemma counters_sum_served (wss : list websocket_Conn) :
  forall pre : list counter.t,
    int (counters_sum
           (pre ++ map (fun ws => counter.mk (int (counted (ws_inbound ws)))) wss)
           (seq (length pre) (length wss)))
    = int (bytes_read wss).
Proof.
  induction wss as [|ws rest IH]; intros pre; [reflexivity|].
  cbn [length seq counters_sum fold_right map bytes_read].
  rewrite list_lookup_middle by reflexivity. cbn [counter.N].
  fold (counters_sum (pre ++ counter.mk (int (counted (ws_inbound ws)))
                          :: map (fun ws => counter.mk (int (counted (ws_inbound ws))))
                                 rest)
                     (seq (S (length pre)) (length rest))).
  fold (bytes_read rest).
  rewrite int_add_l.
  specialize (IH (pre ++ [counter.mk (int (counted (ws_inbound ws)))])).
  rewrite <- app_assoc, length_app in IH. cbn [length app] in IH.
  rewrite Nat.add_1_r in IH.
  rewrite Z.add_comm, <- int_add_l, IH, int_add_l. f_equal. lia.
Qed.

Section ServedFacts.
Context {env : Env}.
Hypothesis Haccept : accepts_all.
Hypothesis Hupgrade : upgrades_all.

Lemma Dialer_Dial_accepted (wk : Work.t) (hp : string)
    (wss : list websocket_Conn) (t : list Event) :
  url_hostport (Work.URL wk) = inl hp ->
  Work.resolve wk = "" ->
  exists ws,
    Dialer_Dial (Work.URL wk) (Work.header wk) (served_state wk wss) t =
      (Ret (Dialed ws), served_state wk wss, t ++ [ENetDial "tcp" hp]) /\
    ends (ws_inbound ws) = true.
Proof.
  intros Hurl Hres. unfold Dialer_Dial. rewrite Hurl. go_unfold.
  unfold served_state at 1, run_state at 1.
  cbn [w set_heap put_counters put_sockets on_w set_w Work.dila
       Work.set_counters Work.set_sockets].
  rewrite Hres. cbn [override_of String.eqb NetDialContext].
  destruct (Haccept t "tcp" hp) as [conn ->]. go_step.
  destruct (Hupgrade (t ++ [ENetDial "tcp" hp]) conn) as (ws & -> & Hends).
  exists ws. now split.
Qed.

Lemma served_state_snoc (wk : Work.t) (wss : list websocket_Conn)
    (ws : websocket_Conn) :
  Work.resolve wk = "" ->
  let s1 :=
    set_heap (heap (served_state wk wss)
                ++ [counter.mk (int (counted (ws_inbound ws)))])
      (put_counters
         (Some {| buf := seq 0 (length wss) ++ [length (heap (served_state wk wss))];
                  cap := Work.C wk; closed := false |})
         (put_sockets
            (Some {| buf := wss ++ [ws]; cap := Work.C wk; closed := false |})
            (served_state wk wss))) in
  set_wg (wg s1 + -1) s1
  = served_state wk (wss ++ [ws]).
Proof.
  intros Hres s1. unfold s1, served_state, run_state, set_wg, set_heap, put_counters,
    put_sockets, on_w, set_w.
  cbn. rewrite Hres. cbn.
  rewrite map_app, length_map, length_app, Nat.add_1_r, seq_S. cbn.
  f_equal. unfold len. rewrite length_app. cbn. lia.
Qed.

Lemma launch_served (wk : Work.t) (hp : string) (wss : list websocket_Conn)
    (t : list Event) :
  url_hostport (Work.URL wk) = inl hp ->
  Work.resolve wk = "" ->
  Work.SendData wk = "" ->
  (0 < len wss -> Work.CPS wk <> 0) ->
  len wss < Work.C wk ->
  exists ws ev,
    launch (len wss) (served_state wk wss) t =
      (Ret tt, served_state wk (wss ++ [ws]), t ++ ev) /\
    sent_sockets ev = [ws] /\ launches ev = [len wss] /\
    schedule ev = EGo (len wss) ::
                  (if pause_after (Work.CPS wk) (len wss) then [ESleep] else []) /\
    reports ev = [].
Proof.
  intros Hurl Hres Hdata HCPS Hroom.
  destruct (Dialer_Dial_accepted wk hp wss (t ++ [EGo (len wss)]) Hurl Hres)
    as (ws & Hdial & Hends).
  destruct (runWorker_reads (len wss) (served_state wk wss) (served_state wk wss)
              (t ++ [EGo (len wss)])
              ((t ++ [EGo (len wss)]) ++ [ENetDial "tcp" hp]) ws wss
              (seq 0 (length wss))
              (Work.C wk) (Work.C wk))
    as (ev & Hrun & _ & Hs & Hl & Hc & Hr);
    [ exact Hdial | exact Hdata | reflexivity | exact Hroom | reflexivity
    | unfold len in *; rewrite length_seq; exact Hroom
    | now split | exact Hends | ].
  exists ws.
  unfold launch. go_unfold. unfold go_. go_unfold.
  rewrite Hrun. unfold wg_Add. go_unfold.
  rewrite (served_state_snoc wk wss ws Hres).
  change (Work.CPS (w (served_state wk (wss ++ [ws])))) with (Work.CPS wk).
  change (Work.verbose (w (served_state wk (wss ++ [ws])))) with (Work.verbose wk).
  unfold pause_after.
  destruct (Z.ltb_spec 0 (len wss)) as [Hpos|Hpos]; go_step;
    [rewrite (proj2 (Z.eqb_neq _ _) (HCPS Hpos)); go_step;
     destruct (len wss `rem` Work.CPS wk =? 0); go_step;
     [destruct (Work.verbose wk); go_step|]|];
    eexists; rewrite <- !app_assoc; (split; [reflexivity|]);
    rewrite ?sent_sockets_app, ?launches_app, ?schedule_app, ?reports_app;
    cbn [app sent_sockets launches schedule reports];
    rewrite ?sent_sockets_app, ?launches_app, ?schedule_app, ?reports_app,
      Hs, Hl, Hc, Hr;
    repeat split.
Qed.

Lemma Start_served (wk : Work.t) (hp : string) (t : list Event) :
  url_hostport (Work.URL wk) = inl hp ->
  Work.resolve wk = "" ->
  Work.SendData wk = "" ->
  (2 <= Work.C wk -> Work.CPS wk <> 0) ->
  0 <= Work.C wk ->
  Work.ao wk = None ->
  exists wss ev,
    Start (init_World wk) t = (Ret tt, served_state wk wss, t ++ ev) /\
    len wss = Work.C wk /\
    sent_sockets ev = wss /\ launches ev = seqZ 0 (Work.C wk) /\
    schedule ev = launch_schedule (Work.C wk) (Work.CPS wk) /\
    reports ev = [].
Proof.
  intros Hurl Hres Hdata HCPS HC Hao.
  destruct (for_loop_inv
              (fun i s t' => exists wss ev,
                   s = served_state wk wss /\ len wss = i /\ t' = t ++ ev /\
                   sent_sockets ev = wss /\ launches ev = seqZ 0 i /\
                   schedule ev = launch_schedule i (Work.CPS wk) /\
                   reports ev = [])
              launch (Z.to_nat (Work.C wk)) 0 (served_state wk []) t)
    as (s' & t' & Hloop & wss & ev & -> & Hlen & -> & Hs & Hl & Hc & Hr).
  { exists [], []. now rewrite app_nil_r. }
  { intros i s1 t1 Hi (wss & ev & -> & Hlen & -> & Hs & Hl & Hc & Hr).
    destruct (launch_served wk hp wss (t ++ ev) Hurl Hres Hdata)
      as (ws & ev' & Hrun & Hs' & Hl' & Hc' & Hr');
      [intros; apply HCPS; lia | lia |].
    rewrite Hlen in Hrun, Hl', Hc'.
    eexists _, _. split; [exact Hrun|].
    exists (wss ++ [ws]), (ev ++ ev').
    rewrite sent_sockets_app, launches_app, schedule_app, reports_app,
      Hs, Hs', Hl, Hl', Hc, Hc', Hr, Hr', app_assoc.
    rewrite (seqZ_app 0 i 1), launch_schedule_succ by lia.
    repeat split. unfold len in *. rewrite length_app. cbn. lia. }
  rewrite Z2Nat.id in * by lia. rewrite Z.add_0_l in *.
  exists wss, (ev ++ if Work.verbose wk
                     then [EStdout (MWorkersStarted (Work.C wk))] else []).
  split; [|split; [exact Hlen|]].
  - unfold Start, make_chan. go_unfold.
    cbn [w init_World Work.C].
    rewrite (proj2 (Z.ltb_ge _ _) HC). go_step.
    assert (Hsetup : forall s1 t1, Work.resolve (w s1) = "" ->
                       setup_resolve s1 t1 = (Ret tt, s1, t1)).
    { intros s1 t1 E. unfold setup_resolve. go_unfold. now rewrite E. }
    rewrite Hsetup by exact Hres.
    unfold wg_Add. go_unfold.
    match goal with
    | |- context [for_loop _ 0 _ ?s t] =>
        replace s with (served_state wk [])
    end.
    + rewrite Hloop. unfold wg_Wait. go_unfold.
      assert ((wg (served_state wk wss) =? 0) = true) as Hwg
        by (unfold served_state, run_state, set_heap, put_counters, put_sockets,
              on_w, set_w; cbn [wg w]; apply Z.eqb_eq; lia).
      destruct (Work.verbose wk); go_step; rewrite Hwg, ?app_assoc, ?app_nil_r;
        reflexivity.
    + clear Hloop. destruct wk. cbn in Hao, Hres. subst.
      unfold served_state, run_state, init_World, set_wg, set_heap, on_w, set_w,
        put_stopCh, put_counters, put_sockets, on_w, set_w.
      cbn. f_equal. unfold len. cbn [length]. lia.
  - rewrite sent_sockets_app, launches_app, schedule_app, reports_app,
      Hs, Hl, Hc, Hr.
    destruct (Work.verbose wk); cbn; rewrite !app_nil_r; repeat split.
Qed.


Lemma Stop_events_quiet (verbose : bool) (n : nat) (ss : list websocket_Conn) :
  let ev := (if verbose then [EStdout MStopping] else [])
              ++ repeat EStopSend n
              ++ [ECloseSockets; ECloseCounters]
              ++ close_frame_events ss
              ++ (if verbose && all_writable ss then [EStdout MStopped] else []) in
  sent_sockets ev = [] /\ launches ev = [] /\ reports ev = [].
Proof.
  assert (H1 : sent_sockets (repeat EStopSend n) = [] /\
               reports (repeat EStopSend n) = [])
    by (induction n; simpl; auto).
  assert (H2 : sent_sockets (close_frame_events ss) = [] /\
               launches (close_frame_events ss) = [] /\
               reports (close_frame_events ss) = []).
  { induction ss as [|s rest IH]; [now repeat split|].
    cbn [close_frame_events].
    destruct (ws_WriteClose s); [now repeat split|exact IH]. }
  destruct H1 as [H1 H1']. destruct H2 as (H2 & H3 & H4).
  intros ev. unfold ev.
  rewrite !sent_sockets_app, !launches_app, !reports_app, H1, H1', H2, H3, H4,
    launches_repeat_EStopSend.
  destruct verbose; cbn [andb]; [destruct (all_writable ss)|]; now repeat split.
Qed.


End ServedFacts.


Lemma sleeps_schedule (tr : list Event) : sleeps (schedule tr) = sleeps tr.
Proof.
  induction tr as [|e tr IH]; [reflexivity|].
  destruct e; simpl; rewrite ?IH; reflexivity.
Qed.



(** ** The command line *)

Section CommandLine.
Context {env : Env}.

(** X17.  Without a positional argument [main] writes the usage text to
    standard error and exits with status 1, whatever the flags are; it
    builds no [Work] and opens no connection. *)
Theorem main_no_url_exits (fl : flag.t) (s : World) (t : list Event) :
  flag.Args fl = [] ->
  main fl s t = (Exit 1, s, t ++ [EStderr MUsage; EStderr MNewlines]).
Proof.
  intros Hargs. unfold main, main_Work, usageAndExit. go_unfold.
  rewrite Hargs. change (len (@nil string) <? 1) with true.
  cbn [String.eqb negb]. cbv beta iota.
  rewrite <- app_assoc. reflexivity.
Qed.

Lemma parse_headers_bad (good : list string) (bad : string)
    (rest : list string) :
  Forall (fun g => length (FindStringSubmatch headerRegexp g) = 3%nat) good ->
  FindStringSubmatch headerRegexp bad = [] ->
  forall (St : Type) (hdr : list (string * string)) (s : St) (t : list Event),
    parse_headers (good ++ bad :: rest) hdr s t =
      (Exit 1, s,
       t ++ [EStderr (MText ("could not parse the provided input; input = "
                               +:+ bad));
             EStderr MNewlines; EStderr MUsage; EStderr MNewlines]).
Proof.
  intros Hgood Hbad St. induction Hgood as [|g good Hg _ IH]; intros hdr s t.
  - cbn [app parse_headers]. unfold parseInputWithRegexp. rewrite Hbad.
    change (len (@nil string) <? 1) with true. cbv beta iota.
    unfold usageAndExit. go_unfold.
    change (negb (String.eqb ("could not parse the provided input; input = "
                                +:+ bad) "")) with true.
    cbv beta iota. rewrite <- !app_assoc. reflexivity.
  - cbn [app parse_headers]. unfold parseInputWithRegexp.
    destruct (FindStringSubmatch headerRegexp g) as [|m0 [|m1 [|m2 [|]]]];
      try discriminate Hg.
    change (len [m0; m1; m2] <? 1) with false. cbv beta iota.
    go_unfold. change (len [m0; m1; m2]) with 3. cbn. apply IH.
Qed.

(** X18.  A [-H] value the header pattern does not match, after any
    number of values it matches, ends the run before anything is dialled:
    [main] writes the parse error naming that value, then the usage text,
    to standard error and exits with status 1. *)
Theorem main_bad_header_exits (fl : flag.t) (s : World) (t : list Event)
    (url : string) (args : list string) (good : list string) (bad : string)
    (rest : list string) :
  flag.Args fl = url :: args ->
  flag.hs fl = good ++ bad :: rest ->
  Forall (fun g => length (FindStringSubmatch headerRegexp g) = 3%nat) good ->
  FindStringSubmatch headerRegexp bad = [] ->
  main fl s t =
    (Exit 1, s,
     t ++ [EStderr (MText ("could not parse the provided input; input = "
                             +:+ bad));
           EStderr MNewlines; EStderr MUsage; EStderr MNewlines]).
Proof.
  intros Hargs Hhs Hgood Hbad. unfold main. unfold bind at 1.
  unfold main_Work. rewrite Hargs, Hhs.
  assert (Hlt : (len (url :: args) <? 1) = false)
    by (apply Z.ltb_ge; unfold len; cbn [length]; lia).
  assert (Hle : (len (url :: args) <=? 0) = false)
    by (apply Z.leb_gt; unfold len; cbn [length]; lia).
  go_unfold. rewrite Hlt, Hle. cbn [Z.ltb Z.compare orb Z.to_nat lookup].
  cbv beta iota.
  change ((url :: args) !! Z.to_nat 0) with (Some url). cbv beta iota.
  rewrite (parse_headers_bad good bad rest Hgood Hbad). reflexivity.
Qed.

(** X19.  A negative connection count is not rejected on the command
    line: [main] builds the [Work] and [Start] panics on the first
    [make(chan, C)], with nothing written and nothing dialled. *)
Theorem main_negative_connections_panics (fl : flag.t) (wk : Work.t) :
  main_Work fl zero_World [] = (Ret wk, zero_World, []) ->
  flag.conc fl < 0 ->
  main fl zero_World [] = (Panic MakechanSizeOutOfRange, init_World wk, []).
Proof.
  intros Hwork HC.
  destruct (main_Work_Ret fl wk _ _ _ _ Hwork) as (_ & _ & HwC & _).
  unfold main. unfold bind at 1. rewrite Hwork.
  unfold bind at 1, modify.
  change (set_w wk zero_World) with (init_World wk).
  unfold bind at 1, Start, make_chan. go_unfold.
  cbn [w init_World]. rewrite HwC, (proj2 (Z.ltb_lt _ _) HC). reflexivity.
Qed.

End CommandLine.

Lemma main_no_url_exits_witness :
  flag.Args (flag.mk "" "" "" "" "example.com:443:10.0.0.1" 50 20 0
                     true false false false ["Accept: text/html"] []) = [] /\
  main (env := env_accept)
       (flag.mk "" "" "" "" "example.com:443:10.0.0.1" 50 20 0
                true false false false ["Accept: text/html"] [])
       zero_World []
    = (Exit 1, zero_World, [EStderr MUsage; EStderr MNewlines]).
Proof.
  split; [reflexivity|].
  apply (main_no_url_exits (env := env_accept)). reflexivity.
Defined.

Lemma main_bad_header_exits_witness :
  let fl := flag.mk "" "" "" "" "" 50 20 0 false false false false
                    ["no colon here"; "Accept: text/html"]
                    ["wss://example.com/"] in
  (flag.Args fl = ["wss://example.com/"] /\
   flag.hs fl = [] ++ "no colon here" :: ["Accept: text/html"] /\
   Forall (fun g => length (FindStringSubmatch (Env := env_accept)
                              headerRegexp g) = 3%nat) [] /\
   FindStringSubmatch (Env := env_accept) headerRegexp "no colon here" = []) /\
  main (env := env_accept) fl zero_World []
    = (Exit 1, zero_World,
       [EStderr (MText "could not parse the provided input; input = no colon here");
        EStderr MNewlines; EStderr MUsage; EStderr MNewlines]).
Proof.
  intros fl.
  assert (H1 : flag.Args fl = ["wss://example.com/"]) by reflexivity.
  assert (H2 : flag.hs fl = [] ++ "no colon here" :: ["Accept: text/html"])
    by reflexivity.
  assert (H3 : Forall (fun g => length (FindStringSubmatch (Env := env_accept)
                                          headerRegexp g) = 3%nat) [])
    by constructor.
  assert (H4 : FindStringSubmatch (Env := env_accept) headerRegexp
                 "no colon here" = []) by reflexivity.
  split; [exact (conj H1 (conj H2 (conj H3 H4)))|].
  apply (main_bad_header_exits (env := env_accept) fl zero_World []
           "wss://example.com/" [] [] "no colon here" ["Accept: text/html"]
           H1 H2 H3 H4).
Defined.

Lemma main_negative_connections_panics_witness :
  (main_Work (env := env_accept) (flags_of (-1) "" "" "wss://example.com/")
             zero_World []
     = (Ret (work_of (-1) (-1) "wss://example.com/" ""), zero_World, []) /\
   flag.conc (flags_of (-1) "" "" "wss://example.com/") < 0) /\
  main (env := env_accept) (flags_of (-1) "" "" "wss://example.com/")
       zero_World []
    = (Panic MakechanSizeOutOfRange,
       init_World (work_of (-1) (-1) "wss://example.com/" ""), []).
Proof.
  assert (H1 : main_Work (env := env_accept)
                 (flags_of (-1) "" "" "wss://example.com/") zero_World []
               = (Ret (work_of (-1) (-1) "wss://example.com/" ""),
                  zero_World, [])) by reflexivity.
  assert (H2 : flag.conc (flags_of (-1) "" "" "wss://example.com/") < 0)
    by reflexivity.
  split; [exact (conj H1 H2)|].
  apply (main_negative_connections_panics (env := env_accept) _ _ H1 H2).
Defined.
